(** * NIMA aesthetic scoring: a shallow embedding of
      [utils/nima/inference_model.py] and the properties of its parts.

    Numeric model.  The program computes on numpy / torch arrays of IEEE
    floating-point numbers.  Arrays are modelled as lists of real numbers
    ([R] of the Standard Library) and every arithmetic operation by its exact
    real counterpart; rounding is outside the model.  [np.sqrt] yields NaN on
    a negative argument whereas [sqrt] of the Standard Library yields [0]
    there: the results on [get_std_score] that concern score distributions
    establish that the radicand is non-negative, so the two agree.

    Python exceptions are modelled by an explicit result type; the file
    system, the network and the standard output by an explicit world that is
    threaded through the effectful functions. *)

From Stdlib Require Import Reals Lra Lia ZArith QArith Ascii.
From stdpp Require Import base option list gmap strings.

Local Open Scope R_scope.

(** ** Python outcomes *)

(** The exceptions that the modelled code can raise. *)
Inductive exn : Type :=
  | ValueError                      (* numpy: operands could not be broadcast;
                                       torch: a rejected constructor argument *)
  | AssertionError                  (* a failed [assert] *)
  | RuntimeError (msg : string)     (* torch: invalid device string, negative
                                       dimension, shape mismatch *)
  | IndexError                      (* torch: dimension out of range *)
  | ZeroDivisionError               (* float division by zero *)
  | FileNotFoundError (path : string)
  | ConnectionError (url : string)  (* requests: transport-level failure *).

Inductive result (A : Type) : Type :=
  | Ok (a : A)
  | Raise (e : exn).
Arguments Ok {A} a.
Arguments Raise {A} e.

Definition rbind {A B : Type} (m : result A) (k : A -> result B) : result B :=
  match m with
  | Ok a => k a
  | Raise e => Raise e
  end.

Declare Scope result_scope.
Delimit Scope result_scope with result.
Notation "x <~ m ;; k" := (rbind m (fun x => k))
  (at level 100, m at next level, right associativity) : result_scope.
Notation "'assert!' b ;; k" := (if b then k else Raise AssertionError)
  (at level 100, b at next level, right associativity) : result_scope.
Local Open Scope result_scope.

(** ** numpy on one-dimensional arrays *)

Section Numpy.

(** A one-dimensional [ndarray] of floats. *)
Definition ndarray := list R.

(** [np.arange(start, stop)] for integer bounds. *)
Definition np_arange (start stop : Z) : ndarray :=
  map IZR (seqZ start (stop - start)).

(** Elementwise binary operation with numpy's broadcasting rule for
    one-dimensional operands: equal lengths combine pointwise, an operand
    of length one is stretched, anything else raises [ValueError]. *)
Definition np_broadcast (f : R -> R -> R) (a b : ndarray) : result ndarray :=
  if decide (length a = length b) then Ok (zip_with f a b)
  else match a, b with
       | [x], _ => Ok (map (f x) b)
       | _, [y] => Ok (map (fun x => f x y) a)
       | _, _ => Raise ValueError
       end.

(** [a.sum()] / [np.sum(a)]. *)
Definition np_sum (a : ndarray) : R := foldr Rplus 0 a.

(** [a - m] and [a ** 2] with a scalar operand. *)
Definition np_sub_scalar (a : ndarray) (m : R) : ndarray :=
  map (fun x => x - m) a.
Definition np_square (a : ndarray) : ndarray :=
  map (fun x => x ^ 2) a.

End Numpy.

(** ** Statistic computation *)

(** [get_mean_score(score)]:
      buckets = np.arange(1, 11); mu = (buckets * score).sum() *)
Definition get_mean_score (score : ndarray) : result R :=
  let buckets := np_arange 1 11 in
  prod <~ np_broadcast Rmult buckets score ;;
  Ok (np_sum prod).

(** [get_std_score(scores)]:
      si = np.arange(1, 11); mean = get_mean_score(scores);
      std = np.sqrt(np.sum(((si - mean) ** 2) * scores)) *)
Definition get_std_score (scores : ndarray) : result R :=
  let si := np_arange 1 11 in
  mean <~ get_mean_score scores ;;
  prod <~ np_broadcast Rmult (np_square (np_sub_scalar si mean)) scores ;;
  Ok (sqrt (np_sum prod)).

(** *** The specification side of the statistics *)

(** Probability of bucket [i], for the one-based bucket index [i]. *)
Definition bucket (p : ndarray) (i : nat) : R := nth (i - 1) p 0.

(** [Σ_{i = 1..10} f i]. *)
Definition sum_buckets (f : nat -> R) : R :=
  foldr (fun i acc => f i + acc) 0 (seq 1 10).

(** [Σ_i i · p[i]] *)
Definition weighted_mean (p : ndarray) : R :=
  sum_buckets (fun i => INR i * bucket p i).

(** [Σ_i (i − m)² · p[i]] *)
Definition weighted_variance (m : R) (p : ndarray) : R :=
  sum_buckets (fun i => (INR i - m) ^ 2 * bucket p i).

(** The distribution with all its mass on bucket [k]. *)
Definition delta (k : nat) : ndarray :=
  map (fun i => if Nat.eqb i k then 1 else 0) (seq 1 10).

(** The uniform distribution: 0.1 at every bucket. *)
Definition uniform : ndarray := repeat (1 / 10) 10.

(** A ScoreDistribution: exactly ten non-negative values that sum to one. *)
Definition ScoreDistribution (p : ndarray) : Prop :=
  length p = 10%nat /\ Forall (fun x => 0 <= x) p /\ np_sum p = 1.

Local Close Scope R_scope.
Local Open Scope Z_scope.

(** ** Network architecture *)

(** The torch layers that the program instantiates, with the constructor
    arguments it passes.  A layer is a descriptor; the values of the
    parameter tensors that torch allocates for it are outside the model. *)
Inductive layer : Type :=
  | Conv2d (in_channels out_channels kernel_size stride padding groups : Z)
           (bias : bool)
  | BatchNorm2d (num_features : Z)
  | ReLU (inplace : bool)
  | ReLU6 (inplace : bool)
  | AvgPool2d (kernel_size : Z)
  | Dropout (p : Q)
  | Linear (in_features out_features : Z)
  | Softmax (dim : Z).

(** What torch checks when it constructs a layer.  A convolution wants a
    positive number of groups that divides both channel counts
    ([ValueError]); allocating a parameter tensor with a negative dimension
    is a [RuntimeError]; a dropout probability lies between 0 and 1
    ([ValueError]). *)
Definition layer_check (l : layer) : result unit :=
  match l with
  | Conv2d cin cout k _ _ g _ =>
      if g <=? 0 then Raise ValueError
      else if negb (cin `mod` g =? 0) then Raise ValueError
      else if negb (cout `mod` g =? 0) then Raise ValueError
      else if (cout <? 0) || (cin `div` g <? 0) || (k <? 0)
      then Raise (RuntimeError "negative dimension")
      else Ok tt
  | BatchNorm2d nf =>
      if nf <? 0 then Raise (RuntimeError "negative dimension") else Ok tt
  | Linear fin fout =>
      if (fin <? 0) || (fout <? 0)
      then Raise (RuntimeError "negative dimension") else Ok tt
  | Dropout p =>
      if Qle_bool 0 p && Qle_bool p 1 then Ok tt else Raise ValueError
  | ReLU _ | ReLU6 _ | AvgPool2d _ | Softmax _ => Ok tt
  end.

(** The layers of a list are constructed in order: the first check that
    fails raises. *)
Fixpoint layers_check (ls : list layer) : result unit :=
  match ls with
  | [] => Ok tt
  | l :: rest => _ <~ layer_check l ;; layers_check rest
  end.

(** [conv_bn(inp, oup, stride)] *)
Definition conv_bn (inp oup stride : Z) : list layer :=
  [ Conv2d inp oup 3 stride 1 1 false;
    BatchNorm2d oup;
    ReLU true ].

(** [conv_1x1_bn(inp, oup)] *)
Definition conv_1x1_bn (inp oup : Z) : list layer :=
  [ Conv2d inp oup 1 1 0 1 false;
    BatchNorm2d oup;
    ReLU true ].

(** The attributes of an [InvertedResidual] object. *)
Record InvertedResidual : Type := mkInvertedResidual {
  ir_stride : Z;
  use_res_connect : bool;
  ir_conv : list layer
}.

(** [InvertedResidual.__init__(self, inp, oup, stride, expand_ratio)] *)
Definition InvertedResidual_init (inp oup stride expand_ratio : Z)
  : result InvertedResidual :=
  assert! (bool_decide (stride ∈ [1; 2])) ;;
  let conv :=
    [ (* pw *)
      Conv2d inp (inp * expand_ratio) 1 1 0 1 false;
      BatchNorm2d (inp * expand_ratio);
      ReLU6 true;
      (* dw *)
      Conv2d (inp * expand_ratio) (inp * expand_ratio) 3 stride 1
             (inp * expand_ratio) false;
      BatchNorm2d (inp * expand_ratio);
      ReLU6 true;
      (* pw-linear *)
      Conv2d (inp * expand_ratio) oup 1 1 0 1 false;
      BatchNorm2d oup ] in
  _ <~ layers_check conv ;;
  Ok {| ir_stride := stride;
        use_res_connect := (stride =? 1) && (inp =? oup);
        ir_conv := conv |}.

(** An entry of a module list: a single layer, an [nn.Sequential] of layers,
    or an inverted-residual block. *)
Inductive module : Type :=
  | Leaf (l : layer)
  | Sequential (ls : list layer)
  | Block (b : InvertedResidual).

(** The attributes of a [MobileNetV2] object. *)
Record MobileNetV2 : Type := mkMobileNetV2 {
  interverted_residual_setting : list (Z * Z * Z * Z);
  last_channel : Z;
  features : list module;
  classifier : list module
}.

(** Python's [int(x)] on a number: truncation toward zero.  The width
    multiplier is a float in the program; it is a rational here and its
    products with channel counts are exact, as the float products are
    whenever they need no rounding. *)
Definition py_int (q : Q) : Z := Z.quot (Qnum q) (Z.pos (Qden q)).

(** A [for] loop whose body may raise: the iterations run left to right on
    the loop state and the first exception ends the loop. *)
Fixpoint for_each {A S : Type} (body : S -> A -> result S) (xs : list A)
    (st : S) : result S :=
  match xs with
  | [] => Ok st
  | x :: xs' => st' <~ body st x ;; for_each body xs' st'
  end.

(** [range(n)] *)
Definition py_range (n : Z) : list Z := seqZ 0 n.

(** The table of [MobileNetV2.__init__]: rows are [t, c, n, s]. *)
Definition default_setting : list (Z * Z * Z * Z) :=
  [ (1, 16, 1, 1);
    (6, 24, 2, 2);
    (6, 32, 3, 2);
    (6, 64, 4, 2);
    (6, 96, 3, 1);
    (6, 160, 3, 2);
    (6, 320, 1, 1) ].

(** The loop state of the block-building loops: the local variable
    [input_channel] and the list [self.features]. *)
Definition build_state : Type := Z * list module.

(** Body of [for i in range(n)]. *)
Definition repeat_body (output_channel s t : Z) (st : build_state) (i : Z)
  : result build_state :=
  let '(input_channel, feats) := st in
  blk <~ (if i =? 0
          then InvertedResidual_init input_channel output_channel s t
          else InvertedResidual_init input_channel output_channel 1 t) ;;
  Ok (output_channel, feats ++ [Block blk]).

(** Body of [for t, c, n, s in self.interverted_residual_setting]. *)
Definition stage_body (width_mult : Q) (st : build_state)
    (row : Z * Z * Z * Z) : result build_state :=
  let '(t, c, n, s) := row in
  let output_channel := py_int (inject_Z c * width_mult) in
  for_each (repeat_body output_channel s t) (py_range n) st.

(** The layers of a module, in order. *)
Definition module_layers (m : module) : list layer :=
  match m with
  | Leaf l => [l]
  | Sequential ls => ls
  | Block b => ir_conv b
  end.

(** The step of [_initialize_weights] on one layer: for a convolution,
    [n = kernel_size[0] * kernel_size[1] * out_channels] and
    [math.sqrt(2. / n)], which divides by zero when [n] is zero and has no
    square root when [n] is negative.  The values drawn are outside the
    model. *)
Definition weights_check (l : layer) : result unit :=
  match l with
  | Conv2d _ cout k _ _ _ _ =>
      let n := k * k * cout in
      if n =? 0 then Raise ZeroDivisionError
      else if n <? 0 then Raise ValueError
      else Ok tt
  | _ => Ok tt
  end.

(** [MobileNetV2._initialize_weights(self)] *)
Definition initialize_weights (ms : list module) : result unit :=
  for_each (fun _ l => weights_check l) (flat_map module_layers ms) tt.

(** [MobileNetV2.__init__(self, n_class, input_size, width_mult)] *)
Definition MobileNetV2_init (n_class input_size : Z) (width_mult : Q)
  : result MobileNetV2 :=
  let setting := default_setting in
  assert! (input_size `mod` 32 =? 0) ;;
  let input_channel := py_int (32 * width_mult) in
  let last := if Qlt_le_dec 1 width_mult
              then py_int (1280 * width_mult) else 1280 in
  _ <~ layers_check (conv_bn 3 input_channel 2) ;;
  let feats := [Sequential (conv_bn 3 input_channel 2)] in
  st <~ for_each (stage_body width_mult) setting (input_channel, feats) ;;
  let '(input_channel, feats) := st in
  _ <~ layers_check (conv_1x1_bn input_channel last) ;;
  let feats := feats ++ [Sequential (conv_1x1_bn input_channel last)] in
  let feats := feats ++ [Leaf (AvgPool2d (input_size `div` 32))] in
  let classifier := [Dropout (1 # 2); Linear last n_class] in
  _ <~ layers_check classifier ;;
  _ <~ initialize_weights (feats ++ map Leaf classifier) ;;
  Ok {| interverted_residual_setting := setting;
        last_channel := last;
        features := feats;
        classifier := map Leaf classifier |}.

(** The defaults of the constructor: [n_class=1000, input_size=224,
    width_mult=1.]. *)
Definition MobileNetV2_default : result MobileNetV2 :=
  MobileNetV2_init 1000 224 1.

(** The blocks among a list of modules, in order. *)
Definition blocks_of (ms : list module) : list InvertedResidual :=
  omap (fun m => match m with Block b => Some b | _ => None end) ms.

(** ** Forward evaluation *)

(** A tensor: its shape and its elements in row-major order. *)
Record tensor : Type := mkTensor {
  shape : list nat;
  data : list R
}.

Section InvertedResidualForward.

(** torch's [+] on operands of different shapes: the broadcast sum, or a
    [RuntimeError] when the shapes are incompatible. *)
Variable broadcast_add : tensor -> tensor -> result tensor.

(** torch's [x + y]: elementwise on operands of one shape. *)
Definition torch_add (x y : tensor) : result tensor :=
  if decide (shape x = shape y)
  then Ok {| shape := shape x; data := zip_with Rplus (data x) (data y) |}
  else broadcast_add x y.

(** The callable [self.conv]: the block's [nn.Sequential] applied with the
    current values of its parameters. *)
Variable self_conv : tensor -> result tensor.

(** [InvertedResidual.forward(self, x)] *)
Definition InvertedResidual_forward (self : InvertedResidual) (x : tensor)
  : result tensor :=
  if use_res_connect self
  then y <~ self_conv x ;; torch_add x y
  else self_conv x.

End InvertedResidualForward.

(** *** The layers of the head on a batch of feature vectors *)

Section HeadLayers.
Local Open Scope R_scope.

(** A batch: one row of features per image. *)
Definition batch := list (list R).

(** The parameter tensors of an [nn.Linear]: [weight] has one row per
    output feature, [bias] one entry per output feature. *)
Record linear_params : Type := mkLinearParams {
  weight : list (list R);
  bias : list R
}.

(** The shapes that [nn.Linear(in_features, out_features)] allocates. *)
Definition linear_shape (P : linear_params) (in_features out_features : Z)
  : Prop :=
  Z.of_nat (length (weight P)) = out_features /\
  Z.of_nat (length (bias P)) = out_features /\
  Forall (fun row => Z.of_nat (length row) = in_features) (weight P).

Definition dot (u v : list R) : R := np_sum (zip_with Rmult u v).

Definition relu (x : R) : R := Rmax 0 x.
Definition relu6 (x : R) : R := Rmin (Rmax 0 x) 6.

(** [x @ weight.T + bias] on one row. *)
Definition linear_row (P : linear_params) (x : list R) : list R :=
  zip_with (fun w b => dot x w + b) (weight P) (bias P).

(** [softmax(x)_i = exp(x_i) / Σ_j exp(x_j)] on one row. *)
Definition softmax_row (x : list R) : list R :=
  let e := map exp x in
  map (fun v => v / np_sum e) e.

(** Softmax along dimension 0: every column is normalised over the rows. *)
Definition softmax_columns (x : batch) : batch :=
  let e := map (map exp) x in
  let sums := foldr (zip_with Rplus) (repeat 0 (length (hd [] x))) e in
  map (fun row => zip_with Rdiv row sums) e.

(** Dropout in training mode on one row: the entries that the random mask
    [keep] drops become zero, the others are scaled by [1 / (1 - p)];
    with [p = 1] everything is dropped. *)
Definition dropout_row (p : Q) (keep : nat -> bool) (x : list R) : list R :=
  imap (fun j v => if keep j && negb (Qeq_bool p 1)
                   then v / (1 - Q2R p) else 0) x.

(** The state in which the head is evaluated: the mode flag of the module,
    the parameters of its linear layer, and the mask drawn by dropout for
    entry [j] of row [i] (consulted in training mode only). *)
Record head_state : Type := mkHeadState {
  training : bool;
  linear : linear_params;
  keep_mask : nat -> nat -> bool
}.

(** One layer applied to a batch.  Convolution, batch normalisation and
    pooling over two spatial dimensions reject two-dimensional input. *)
Definition layer_forward (st : head_state) (l : layer) (x : batch)
  : result batch :=
  match l with
  | ReLU _ => Ok (map (map relu) x)
  | ReLU6 _ => Ok (map (map relu6) x)
  | Dropout p =>
      if training st
      then Ok (imap (fun i row => dropout_row p (keep_mask st i) row) x)
      else Ok x
  | Linear in_features out_features =>
      if forallb (fun row => Z.of_nat (length row) =? in_features)%Z x
      then Ok (map (linear_row (linear st)) x)
      else Raise (RuntimeError "mat1 and mat2 shapes cannot be multiplied")
  | Softmax dim =>
      if bool_decide (dim ∈ [1; -1]%Z) then Ok (map softmax_row x)
      else if bool_decide (dim ∈ [0; -2]%Z) then Ok (softmax_columns x)
      else Raise IndexError
  | _ => Raise (RuntimeError "expected 4D input")
  end.

(** [nn.Sequential.forward]: the layers applied in order. *)
Definition Sequential_forward (st : head_state) (ls : list layer)
    (x : batch) : result batch :=
  for_each (fun acc l => layer_forward st l acc) ls x.

End HeadLayers.

(** ** The world: file system, network, standard output *)

Local Open Scope string_scope.

(** An HTTP response as [requests] presents it with [stream=True]: the
    status line has been read; [iter_content chunk_size] yields the chunks of
    the body and then either ends or raises a transport-level exception. *)
Record response : Type := mkResponse {
  status_code : Z;
  iter_content : Z -> list (list Byte.byte) * option exn
}.

(** The world.  The file store is flat: a path exists when the store has an
    entry for it.  [open_error path] is what opening [path] for writing
    raises, if anything: [FileNotFoundError] when the directory of the path
    is missing, a permission error, and the like; it is a property of the
    environment that the program does not change.  [requests_log] records
    the URLs handed to the transport layer, oldest first. *)
Record world : Type := mkWorld {
  fs : gmap string (list Byte.byte);
  open_error : string -> option exn;
  requests_log : list string;
  stdout : list string
}.

(** An effectful computation: it ends in a value or an exception, and in
    both cases in a new world. *)
Definition M (A : Type) : Type := world -> result A * world.

Definition ret {A : Type} (a : A) : M A := fun w => (Ok a, w).
Definition raise {A : Type} (e : exn) : M A := fun w => (Raise e, w).
Definition lift {A : Type} (r : result A) : M A := fun w => (r, w).
Definition bind {A B : Type} (m : M A) (k : A -> M B) : M B :=
  fun w => match m w with
           | (Ok a, w') => k a w'
           | (Raise e, w') => (Raise e, w')
           end.

Declare Scope effect_scope.
Delimit Scope effect_scope with effect.
Notation "x <- m ;; k" := (bind m (fun x => k))
  (at level 100, m at next level, right associativity) : effect_scope.
Notation "m ;;; k" := (bind m (fun _ => k))
  (at level 100, right associativity) : effect_scope.

Section Effects.
Local Open Scope effect_scope.

(** The remote side: what the transport layer answers to a GET of a URL,
    given the requests made before.  [Raise] is a transport-level failure;
    an HTTP error status is an [Ok] response. *)
Variable server : list string -> string -> result response.

(** [os.path.exists(path)] *)
Definition os_path_exists (path : string) : M bool :=
  fun w => (Ok (bool_decide (is_Some (fs w !! path))), w).

(** [requests.get(url, stream=True)] *)
Definition requests_get (url : string) : M response :=
  fun w => (server (requests_log w) url,
            {| fs := fs w;
               open_error := open_error w;
               requests_log := (requests_log w ++ [url])%list;
               stdout := stdout w |}).

(** [print(a, b)] *)
Definition print2 (a b : string) : M unit :=
  fun w => (Ok tt,
            {| fs := fs w;
               open_error := open_error w;
               requests_log := requests_log w;
               stdout := (stdout w ++ [a +:+ " " +:+ b])%list |}).

(** [open(path, 'wb')]: the file is created, or truncated, unless the
    environment refuses to open the path, in which case the exception is
    raised and no file appears. *)
Definition open_wb (path : string) : M unit :=
  fun w => match open_error w path with
           | Some e => (Raise e, w)
           | None =>
               (Ok tt,
                {| fs := <[path := []]> (fs w);
                   open_error := open_error w;
                   requests_log := requests_log w;
                   stdout := stdout w |})
           end.

(** [f.write(chunk)] on the file opened at [path]. *)
Definition file_write (path : string) (chunk : list Byte.byte) : M unit :=
  fun w => (Ok tt,
            {| fs := <[path := (default [] (fs w !! path) ++ chunk)%list]> (fs w);
               open_error := open_error w;
               requests_log := requests_log w;
               stdout := stdout w |}).

(** The loop [for chunk in ...: if chunk: f.write(chunk)]. *)
Fixpoint write_chunks (path : string) (chunks : list (list Byte.byte))
  : M unit :=
  match chunks with
  | [] => ret tt
  | chunk :: rest =>
      (match chunk with
       | [] => ret tt
       | _ :: _ => file_write path chunk
       end) ;;;
      write_chunks path rest
  end.

(** [download_file(url, local_filename, chunk_size=1024)].  Leaving the
    [with] block closes the file on both the normal and the exceptional
    path; what was written stays. *)
Definition download_file (url local_filename : string) (chunk_size : Z)
  : M string :=
  present <- os_path_exists local_filename ;;
  if (present : bool) then ret local_filename
  else
    r <- requests_get url ;;
    print2 "Opening" local_filename ;;;
    open_wb local_filename ;;;
    let '(chunks, failure) := iter_content r chunk_size in
    write_chunks local_filename chunks ;;;
    match failure with
    | Some e => raise e
    | None => ret local_filename
    end.

Definition MOBILE_NET_V2_UTR : string :=
  "https://s3-us-west-1.amazonaws.com/models-nima/mobilenetv2.pth.tar".

End Effects.

(** ** Preprocessing configuration *)

Inductive transform_step : Type :=
  | Resize (height width : Z)
  | RandomHorizontalFlip
  | RandomCrop (height width : Z)
  | ToTensor
  | Normalize (mean std : list Q).

Definition IMAGE_NET_MEAN : list Q := [485 # 1000; 456 # 1000; 406 # 1000]%Q.
Definition IMAGE_NET_STD : list Q := [229 # 1000; 224 # 1000; 225 # 1000]%Q.

Record Transform : Type := mkTransform {
  train_transform : list transform_step;
  val_transform : list transform_step
}.

(** [Transform.__init__] *)
Definition Transform_init : Transform :=
  let normalize := Normalize IMAGE_NET_MEAN IMAGE_NET_STD in
  {| train_transform :=
       [Resize 256 256; RandomHorizontalFlip; RandomCrop 224 224; ToTensor;
        normalize];
     val_transform := [Resize 224 224; ToTensor; normalize] |}.

(** ** Device identifiers *)

(** [torch.device(s)] on a string: a device type, optionally followed by a
    colon and a decimal index without superfluous leading zero.  torch is a
    library outside this repository; its parser is written out here from its
    documented grammar.  The index is kept as the number that is written;
    torch stores it in a signed 8-bit field, so the two agree on the indices
    up to 127.  The message of the error is torch's without the quotation
    marks that torch puts around the string. *)
Module TorchDevice.

Definition device_types : list string :=
  [ "cpu"; "cuda"; "ipu"; "xpu"; "mkldnn"; "opengl"; "opencl"; "ideep";
    "hip"; "ve"; "fpga"; "maia"; "xla"; "lazy"; "vulkan"; "mps"; "meta";
    "hpu"; "mtia"; "privateuseone" ].

Record device : Type := mkDevice {
  device_type : string;
  device_index : option N
}.

(** The text before the first colon, and the text after it if there is
    a colon. *)
Fixpoint split_colon (s : string) : string * option string :=
  match s with
  | EmptyString => (EmptyString, None)
  | String c rest =>
      if Ascii.eqb c ":"%char then (EmptyString, Some rest)
      else let '(ty, idx) := split_colon rest in (String c ty, idx)
  end.

Definition digit_value (c : Ascii.ascii) : option N :=
  let n := Ascii.N_of_ascii c in
  if ((48 <=? n) && (n <=? 57))%N then Some (n - 48)%N else None.

Fixpoint parse_digits (acc : N) (s : string) : option N :=
  match s with
  | EmptyString => Some acc
  | String c rest =>
      match digit_value c with
      | Some d => parse_digits (10 * acc + d)%N rest
      | None => None
      end
  end.

Definition parse_index (s : string) : option N :=
  match s with
  | EmptyString => None
  | String "0"%char (String _ _) => None
  | _ => parse_digits 0 s
  end.

Definition torch_device (s : string) : result device :=
  let '(ty, idx) := split_colon s in
  if bool_decide (ty ∈ device_types)
  then match idx with
       | None => Ok {| device_type := ty; device_index := None |}
       | Some i =>
           match parse_index i with
           | Some n => Ok {| device_type := ty; device_index := Some n |}
           | None => Raise (RuntimeError ("Invalid device string: " +:+ s))
           end
       end
  else Raise (RuntimeError ("Invalid device string: " +:+ s)).

End TorchDevice.

(** ** The scoring network and the inference engine *)

(** The attributes of a [NIMA] object. *)
Record NIMA : Type := mkNIMA {
  base_model : list (list module);
  head : list layer
}.

(** [list(model.children())]: the sub-modules in registration order. *)
Definition children (m : MobileNetV2) : list (list module) :=
  [features m; classifier m].

Section Engine.
Local Open Scope effect_scope.

Variable server : list string -> string -> result response.

(** A deserialised weight file: the mapping from parameter names to
    arrays.  [unpickle] is the decoding done by [torch.load]; [accepts]
    is the strict check of [load_state_dict], that key set and shapes are
    those of the parameters of the given module tree.  The records above
    describe the architecture only; parameter values live in the mapping. *)
Variable state_dict : Type.
Variable unpickle : list Byte.byte -> result state_dict.
Variable accepts : list (list module) -> state_dict -> bool.

(** Whether a compute device is present on the machine. *)
Variable available : TorchDevice.device -> bool.

(** [torch.load(path, map_location=...)] *)
Definition torch_load (path : string) : M state_dict :=
  fun w => match fs w !! path with
           | Some content => (unpickle content, w)
           | None => (Raise (FileNotFoundError path), w)
           end.

(** [module.load_state_dict(state_dict)] *)
Definition load_state_dict (tree : list (list module)) (sd : state_dict)
  : result unit :=
  if accepts tree sd then Ok tt
  else Raise (RuntimeError "Error(s) in loading state_dict").

(** [mobile_net_v2(pretrained=True)] *)
Definition mobile_net_v2 (pretrained : bool) : M MobileNetV2 :=
  model <- lift MobileNetV2_default ;;
  if pretrained then
    let path_to_model := "utils/nima/tmp/mobilenetv2.pth.tar" in
    present <- os_path_exists path_to_model ;;
    path_to_model <- (if negb present
                      then download_file server MOBILE_NET_V2_UTR
                                         path_to_model 1024
                      else ret path_to_model) ;;
    sd <- torch_load path_to_model ;;
    lift (load_state_dict (children model) sd) ;;;
    ret model
  else ret model.

(** [NIMA.__init__(self, pretrained_base_model=True)] *)
Definition NIMA_init (pretrained_base_model : bool) : M NIMA :=
  base <- mobile_net_v2 pretrained_base_model ;;
  let base := removelast (children base) in
  ret {| base_model := base;
         head := [ ReLU true;
                   Dropout (3 # 4);
                   Linear 1280 10;
                   Softmax 1 ] |}.

(** The parameters of a [NIMA] module: those of the base model and those
    of the head. *)
Definition NIMA_tree (m : NIMA) : list (list module) :=
  (base_model m ++ [map Leaf (head m)])%list.

(** The attributes of an [InferenceModel], and the module state that
    [__init__] establishes: the loaded mapping and the mode flag. *)
Record InferenceModel : Type := mkInferenceModel {
  device : TorchDevice.device;
  transform : list transform_step;
  model : NIMA;
  model_weights : state_dict;
  model_training : bool
}.

Definition default_path_to_model : string :=
  "utils/nima/model/pretrain-model.pth".

(** [InferenceModel.__init__(self, device, path_to_model=...)]; an omitted
    [path_to_model] is [None] here and takes the default. *)
Definition InferenceModel_init (device : string)
    (path_to_model : option string) : M InferenceModel :=
  let path_to_model := default default_path_to_model path_to_model in
  dev <- lift (TorchDevice.torch_device device) ;;
  let transform := val_transform Transform_init in
  model <- NIMA_init false ;;
  sd <- torch_load path_to_model ;;
  lift (load_state_dict (NIMA_tree model) sd) ;;;
  (if available dev then ret tt
   else raise (RuntimeError "device is not available")) ;;;
  ret {| device := dev;
         transform := transform;
         model := model;
         model_weights := sd;
         model_training := false |}.

(** [InferenceModel.create_model(cls)]: the call [cls(path_to_model)]
    passes its one argument positionally. *)
Definition create_model : M InferenceModel :=
  let path_to_model := "utils/nima/model/pretrain-model.pth" in
  InferenceModel_init path_to_model None.

End Engine.

Local Close Scope string_scope.

(** ** Specification-side definitions *)

Section StatisticsSpec.
Local Open Scope R_scope.

  (** The population standard deviation of a finite sample. *)
Definition population_std (xs : list R) : R :=
    let n := INR (length xs) in
    let mu := np_sum xs / n in
    sqrt (np_sum (map (fun x => (x - mu) ^ 2) xs) / n).

End StatisticsSpec.

Section ArchitectureSpec.
Local Open Scope Z_scope.

(** The object that [InvertedResidual(inp, oup, stride, expand_ratio)]
    yields when its assertion holds. *)
Definition built_block (args : Z * Z * Z * Z) : InvertedResidual :=
  let '(inp, oup, stride, expand_ratio) := args in
  {| ir_stride := stride;
     use_res_connect := (stride =? 1) && (inp =? oup);
     ir_conv :=
       [ Conv2d inp (inp * expand_ratio) 1 1 0 1 false;
         BatchNorm2d (inp * expand_ratio);
         ReLU6 true;
         Conv2d (inp * expand_ratio) (inp * expand_ratio) 3 stride 1
                (inp * expand_ratio) false;
         BatchNorm2d (inp * expand_ratio);
         ReLU6 true;
         Conv2d (inp * expand_ratio) oup 1 1 0 1 false;
         BatchNorm2d oup ] |}.

(** The blocks of one stage [(t, c, n, s)] in the words of the
    specification, as constructor arguments [(inp, oup, stride, t)]: [n]
    blocks with [c] output channels; the first has stride [s] and takes the
    channel count [inp] that precedes the stage, each later one has stride 1
    and takes the [c] channels of the block before it. *)
Definition stage_blocks (inp : Z) (row : Z * Z * Z * Z)
  : list (Z * Z * Z * Z) :=
  let '(t, c, n, s) := row in
  match Z.to_nat n with
  | O => []
  | S k => (inp, c, s, t) :: repeat (c, c, 1, t) k
  end.

(** The channel count that leaves a stage. *)
Definition stage_output (inp : Z) (row : Z * Z * Z * Z) : Z :=
  let '(t, c, n, s) := row in if 0 <? n then c else inp.

(** The blocks of a stage table, stage after stage. *)
Fixpoint table_blocks (inp : Z) (rows : list (Z * Z * Z * Z))
  : list (Z * Z * Z * Z) :=
  match rows with
  | [] => []
  | row :: rest =>
      (stage_blocks inp row ++ table_blocks (stage_output inp row) rest)%list
  end.

Fixpoint table_output (inp : Z) (rows : list (Z * Z * Z * Z)) : Z :=
  match rows with
  | [] => inp
  | row :: rest => table_output (stage_output inp row) rest
  end.

(** Every block takes as input channel count the output channel count of
    the block before it; the first takes [inp]. *)
Fixpoint chained (inp : Z) (blocks : list (Z * Z * Z * Z)) : Prop :=
  match blocks with
  | [] => True
  | (i, o, _, _) :: rest => i = inp /\ chained o rest
  end.

(** A table row with its channel count scaled by the width multiplier. *)
Definition scale_row (width_mult : Q) (row : Z * Z * Z * Z)
  : Z * Z * Z * Z :=
  let '(t, c, n, s) := row in (t, py_int (inject_Z c * width_mult), n, s).

(** A call of the block constructor that returns. *)
Definition constructed (args : Z * Z * Z * Z) : Prop :=
  let '(inp, oup, stride, t) := args in
  InvertedResidual_init inp oup stride t = Ok (built_block args).

(** The stride argument of a constructor call passes the assertion. *)
Definition stride_arg_ok (args : Z * Z * Z * Z) : Prop :=
  let '(inp, oup, stride, t) := args in stride = 1 \/ stride = 2.

(** The stride of a table row passes the assertion of the block. *)
Definition stride_ok (row : Z * Z * Z * Z) : Prop :=
  let '(t, c, n, s) := row in s = 1 \/ s = 2.

(** The network that the constructor builds, in closed form. *)
Definition built_network (n_class input_size : Z) (width_mult : Q)
  : MobileNetV2 :=
  let rows := map (scale_row width_mult) default_setting in
  let stem := py_int (32 * width_mult) in
  let last := if Qlt_le_dec 1 width_mult
              then py_int (1280 * width_mult) else 1280 in
  {| interverted_residual_setting := default_setting;
     last_channel := last;
     features :=
       ([Sequential (conv_bn 3 stem 2)]
        ++ map (fun a => Block (built_block a)) (table_blocks stem rows))
       ++ [Sequential (conv_1x1_bn (table_output stem rows) last)]
       ++ [Leaf (AvgPool2d (input_size `div` 32))];
     classifier := [Leaf (Dropout (1 # 2)); Leaf (Linear last n_class)] |}.

End ArchitectureSpec.

Section EffectsSpec.

(** The world after a download of [chunks] to [path] from [url]. *)
Definition downloaded (url path : string) (chunks : list (list Byte.byte))
    (w : world) : world :=
  {| fs := <[path := concat chunks]> (fs w);
     open_error := open_error w;
     requests_log := requests_log w ++ [url];
     stdout := stdout w ++ [("Opening" +:+ " " +:+ path)%string] |}.


(** The world after a request to [url] was answered and the program
    announced that it opens [path], when the environment then refuses to
    open it. *)
Definition refused (url path : string) (w : world) : world :=
  {| fs := fs w;
     open_error := open_error w;
     requests_log := requests_log w ++ [url];
     stdout := stdout w ++ [("Opening" +:+ " " +:+ path)%string] |}.

End EffectsSpec.

(** ** Sample inputs *)

Section Samples.

(** A stand-in projection path that keeps the shape of its input. *)
Definition sample_conv (t : tensor) : result tensor :=
  Ok {| shape := shape t; data := map (Rmult 2) (data t) |}.

(** A stand-in for the broadcast sum that rejects every pair of shapes. *)
Definition sample_broadcast_add (_ _ : tensor) : result tensor :=
  Raise (RuntimeError "shapes cannot be broadcast"%string).

Definition sample_tensor : tensor :=
  {| shape := [1; 2]%nat; data := [1%R; 5%R] |}.

(** A remote side that is never reachable. *)
Definition sample_offline (_ : list string) (url : string) : result response :=
  Raise (ConnectionError url).

(** A world with no file, no request made and nothing printed. *)
Definition empty_world : world :=
  {| fs := ∅; open_error := fun _ => None; requests_log := []; stdout := [] |}.

(** The network that [NIMA(pretrained_base_model=False)] yields. *)
Definition sample_NIMA : NIMA :=
  {| base_model := [features (built_network 1000 224 1)];
     head := [ReLU true; Dropout (3 # 4); Linear 1280 10; Softmax 1] |}.

(** A head in training mode with all-zero parameters and a mask that
    drops the entries at odd positions. *)
Definition sample_head_state : head_state :=
  {| training := true;
     linear := {| weight := repeat (repeat 0%R 1280) 10;
                  bias := repeat 0%R 10 |};
     keep_mask := fun _ j => Nat.even j |}.

Definition sample_batch : batch := [repeat 1%R 1280].

(** A server that answers every request with status 404 and a short body,
    delivered as three chunks of which the second is empty. *)
Definition sample_not_found (_ : list string) (_ : string) : result response :=
  Ok {| status_code := 404;
        iter_content := fun _ => ([[Byte.x4e; Byte.x6f]; []; [Byte.x21]], None) |}.


(** A world in which the weight file is present. *)
Definition sample_cached_world : world :=
  {| fs := {[ "weights.pth"%string := [Byte.x00] ]};
     open_error := fun _ => None;
     requests_log := [];
     stdout := [] |}.

End Samples.

(** ** Shapes through the network *)

Section ShapeInference.
Local Open Scope Z_scope.

(** The shape [(N, C, H, W)] of a four-dimensional activation. *)
Definition shape4 : Type := Z * Z * Z * Z.

(** torch's output size of a convolution or pooling window along one
    spatial axis: [floor((n + 2 * padding - kernel) / stride) + 1]. *)
Definition conv_out (n kernel stride padding : Z) : Z :=
  (n + 2 * padding - kernel) `div` stride + 1.

(** A window of size [kernel] fits an axis of [n] positions padded by
    [padding] on both sides.  torch rejects an empty axis and a window
    larger than the padded axis. *)
Definition window_fits (n kernel padding : Z) : bool :=
  (1 <=? n) && (kernel <=? n + 2 * padding).

(** The shape that a layer yields on input of shape [(N, C, H, W)], by
    torch's shape rules, in training mode ([training = true]) or in
    evaluation mode; [None] when the layer rejects the input: a convolution
    whose channel count is not [C], whose stride is not positive or whose
    window does not fit; a batch normalisation whose channel count is not
    [C] or which, in training mode, finds a single value per channel
    ([N * H * W = 1]); a pooling whose window is empty or larger than the
    map; a linear layer whose [in_features] is not the last dimension. *)
Definition layer_shape (training : bool) (l : layer) (sh : shape4)
  : option shape4 :=
  let '(n, c, h, w) := sh in
  match l with
  | Conv2d cin cout k s p _ _ =>
      if (c =? cin) && (1 <=? s) && window_fits h k p && window_fits w k p
      then Some (n, cout, conv_out h k s p, conv_out w k s p)
      else None
  | BatchNorm2d nf =>
      if (c =? nf) && negb (training && (n * h * w =? 1)) then Some sh
      else None
  | ReLU _ | ReLU6 _ | Dropout _ | Softmax _ => Some sh
  | AvgPool2d k =>
      if (1 <=? k) && (k <=? h) && (k <=? w)
      then Some (n, c, conv_out h k k 0, conv_out w k k 0)
      else None
  | Linear fin fout => if w =? fin then Some (n, c, h, fout) else None
  end.

(** An [nn.Sequential] of layers. *)
Fixpoint layers_shape (training : bool) (ls : list layer) (sh : shape4)
  : option shape4 :=
  match ls with
  | [] => Some sh
  | l :: rest =>
      match layer_shape training l sh with
      | Some sh' => layers_shape training rest sh'
      | None => None
      end
  end.

(** A module of the feature list.  A block with the shortcut adds its input
    to the result of its projection path; the sum has the shape of both when
    the two shapes agree, and is left undetermined ([None]) otherwise. *)
Definition module_shape (training : bool) (m : module) (sh : shape4)
  : option shape4 :=
  match m with
  | Leaf l => layer_shape training l sh
  | Sequential ls => layers_shape training ls sh
  | Block b =>
      match layers_shape training (ir_conv b) sh with
      | Some sh' =>
          if use_res_connect b
          then (if decide (sh' = sh) then Some sh' else None)
          else Some sh'
      | None => None
      end
  end.

Fixpoint modules_shape (training : bool) (ms : list module) (sh : shape4)
  : option shape4 :=
  match ms with
  | [] => Some sh
  | m :: rest =>
      match module_shape training m sh with
      | Some sh' => modules_shape training rest sh'
      | None => None
      end
  end.

(** Batch normalisation accepts [(N, C, H, W)]: always in evaluation mode,
    in training mode unless there is a single value per channel. *)
Definition bn_accepts (training : bool) (n h w : Z) : Prop :=
  training = false \/ n * h * w <> 1.

(** The spatial size that leaves a stage of the table: the first block of a
    stage applies the stride of the stage, the later ones stride 1. *)
Definition stage_spatial (h : Z) (row : Z * Z * Z * Z) : Z :=
  let '(t, c, n, s) := row in if 0 <? n then conv_out h 3 s 1 else h.

Definition table_spatial (rows : list (Z * Z * Z * Z)) (h : Z) : Z :=
  foldl stage_spatial h rows.

End ShapeInference.

(** ** Prediction *)

Section Prediction.
Local Open Scope effect_scope.

Variable state_dict : Type.

(** Decoded images, and the operations of the imaging libraries on them:
    [default_loader] decodes the bytes of a file into an RGB image,
    [image.convert('RGB')] converts an image, and a composed torchvision
    transform turns an image into a tensor. *)
Variable image : Type.
Variable decode_image : list Byte.byte -> result image.
Variable convert_rgb : image -> image.
Variable transform_call : list transform_step -> image -> result tensor.

(** The base model as a callable: the feature extractor evaluated with the
    parameter values of a loaded mapping. *)
Variable base_model_call :
  state_dict -> list (list module) -> tensor -> result tensor.

(** The parameters of the head's linear layer in a loaded mapping, and the
    mask that dropout would draw. *)
Variable head_linear : state_dict -> linear_params.
Variable dropout_mask : nat -> nat -> bool.

(** [x.unsqueeze_(0)]: a leading dimension of size one. *)
Definition unsqueeze0 (x : tensor) : tensor :=
  {| shape := 1%nat :: shape x; data := data x |}.

(** [n] consecutive rows of [k] elements. *)
Fixpoint rows_of (n k : nat) (l : list R) : list (list R) :=
  match n with
  | O => []
  | S n' => take k l :: rows_of n' k (drop k l)
  end.

(** [x.view(x.size(0), -1)]: the elements regrouped in [x.size(0)] rows. *)
Definition view_rows (x : tensor) : result batch :=
  match shape x with
  | [] => Raise IndexError
  | n :: _ =>
      if (n =? 0)%nat
      then Raise (RuntimeError "cannot reshape tensor of 0 elements")
      else if (length (data x) mod n =? 0)%nat
      then Ok (rows_of n (length (data x) / n) (data x))
      else Raise (RuntimeError "shape is invalid for input size")
  end.

(** [NIMA.forward(self, x)], for the parameter values [sd] and the mode
    flag [mode] of the module. *)
Definition NIMA_forward (net : NIMA) (sd : state_dict) (mode : bool)
    (x : tensor) : result batch :=
  x <~ base_model_call sd (base_model net) x ;;
  x <~ view_rows x ;;
  Sequential_forward
    {| training := mode; linear := head_linear sd; keep_mask := dropout_mask |}
    (head net) x.

(** [InferenceModel.predict(self, image)].  Moving the tensor to the device
    and wrapping it for evaluation without gradients do not change its
    values. *)
Definition predict (self : InferenceModel state_dict) (img : image)
  : result (R * R * ndarray) :=
  x <~ transform_call (transform state_dict self) img ;;
  let x := unsqueeze0 x in
  out <~ NIMA_forward (model state_dict self) (model_weights state_dict self)
           (model_training state_dict self) x ;;
  match out with
  | [] => Raise IndexError
  | prob :: _ =>
      mean_score <~ get_mean_score prob ;;
      std_score <~ get_std_score prob ;;
      Ok (mean_score, std_score, prob)
  end.

(** [InferenceModel.predict_from_file(self, image_path)] *)
Definition predict_from_file (self : InferenceModel state_dict)
    (image_path : string) : M (R * R * ndarray) :=
  fun w =>
    match fs w !! image_path with
    | None => (Raise (FileNotFoundError image_path), w)
    | Some content =>
        (img <~ decode_image content ;; predict self img, w)
    end.

(** [InferenceModel.predict_from_pil_image(self, image)] *)
Definition predict_from_pil_image (self : InferenceModel state_dict)
    (img : image) : result (R * R * ndarray) :=
  let img := convert_rgb img in
  predict self img.

End Prediction.

Section MomentsSpec.
Local Open Scope R_scope.

(** [Σ_i i² · p[i]] *)
Definition second_moment (p : ndarray) : R :=
  sum_buckets (fun i => INR i ^ 2 * bucket p i).

End MomentsSpec.

Section MoreSamples.


(** A world in which the weight file of the engine is present. *)
Definition sample_engine_world : world :=
  {| fs := {[ "utils/nima/model/pretrain-model.pth"%string := [Byte.x00] ]};
     open_error := fun _ => None;
     requests_log := [];
     stdout := [] |}.

(** A world in which the pretrained weights of the backbone are cached. *)
Definition sample_backbone_world : world :=
  {| fs := {[ "utils/nima/tmp/mobilenetv2.pth.tar"%string := [Byte.x00] ]};
     open_error := fun _ => None;
     requests_log := [];
     stdout := [] |}.

(** The engine that construction yields on the CPU, for weight mappings
    without content. *)
Definition sample_engine : InferenceModel unit :=
  {| device := {| TorchDevice.device_type := "cpu";
                  TorchDevice.device_index := None |};
     transform := val_transform Transform_init;
     model := sample_NIMA;
     model_weights := tt;
     model_training := false |}.

(** Stand-ins for the imaging and tensor libraries: every image becomes the
    same small tensor, and the base model returns one all-zero vector of
    1280 features. *)
Definition sample_transform_call (_ : list transform_step) (_ : unit)
  : result tensor :=
  Ok sample_tensor.

Definition sample_base_model_call (_ : unit) (_ : list (list module))
    (_ : tensor) : result tensor :=
  Ok {| shape := [1; 1280; 1; 1]%nat; data := repeat 0%R 1280 |}.

End MoreSamples.

(** * Properties *)

(** ** Statistic computation *)

Section StatisticsFacts.
Local Open Scope R_scope.

Lemma ten_elements (p : ndarray) :
  length p = 10%nat ->
  exists p1 p2 p3 p4 p5 p6 p7 p8 p9 p10,
    p = [p1; p2; p3; p4; p5; p6; p7; p8; p9; p10].
Proof.
  intros H.
  do 10 (destruct p as [|? p]; [discriminate H|]).
  destruct p; [|discriminate H].
  repeat eexists.
Qed.

Lemma np_arange_buckets :
  np_arange 1 11 = [1; 2; 3; 4; 5; 6; 7; 8; 9; 10].
Proof. reflexivity. Qed.

Lemma np_broadcast_same_length (f : R -> R -> R) (a b : ndarray) :
  length a = length b -> np_broadcast f a b = Ok (zip_with f a b).
Proof. intros H. unfold np_broadcast. by rewrite decide_True. Qed.

(** The weighted mean written out: position [i - 1] of the array carries
    weight [i]. *)
Lemma weighted_mean_unfold (p : ndarray) :
  weighted_mean p =
    1 * nth 0 p 0 + 2 * nth 1 p 0 + 3 * nth 2 p 0 + 4 * nth 3 p 0
    + 5 * nth 4 p 0 + 6 * nth 5 p 0 + 7 * nth 6 p 0 + 8 * nth 7 p 0
    + 9 * nth 8 p 0 + 10 * nth 9 p 0.
Proof. unfold weighted_mean, sum_buckets, bucket. cbn. lra. Qed.

Lemma get_mean_score_weighted (p : ndarray) :
  length p = 10%nat -> get_mean_score p = Ok (weighted_mean p).
Proof.
  intros H. unfold get_mean_score.
  rewrite np_arange_buckets, np_broadcast_same_length by (by rewrite H).
  destruct (ten_elements p H) as (p1&p2&p3&p4&p5&p6&p7&p8&p9&p10&->).
  rewrite weighted_mean_unfold. cbn. f_equal. lra.
Qed.

Lemma get_std_score_weighted (p : ndarray) :
  length p = 10%nat ->
  get_std_score p = Ok (sqrt (weighted_variance (weighted_mean p) p)).
Proof.
  intros H. unfold get_std_score.
  rewrite (get_mean_score_weighted p H). cbn [rbind].
  rewrite np_arange_buckets, np_broadcast_same_length by (by rewrite H).
  destruct (ten_elements p H) as (p1&p2&p3&p4&p5&p6&p7&p8&p9&p10&->).
  generalize (weighted_mean [p1; p2; p3; p4; p5; p6; p7; p8; p9; p10]).
  intros m. unfold weighted_variance, sum_buckets, bucket. cbn.
  do 2 f_equal. lra.
Qed.

Lemma delta_length (k : nat) : length (delta k) = 10%nat.
Proof. reflexivity. Qed.

Lemma bucket_range (k : nat) :
  (1 <= k <= 10)%nat ->
  k = 1%nat \/ k = 2%nat \/ k = 3%nat \/ k = 4%nat \/ k = 5%nat \/
  k = 6%nat \/ k = 7%nat \/ k = 8%nat \/ k = 9%nat \/ k = 10%nat.
Proof. lia. Qed.

Lemma weighted_mean_delta (k : nat) :
  (1 <= k <= 10)%nat -> weighted_mean (delta k) = INR k.
Proof.
  intros H. rewrite weighted_mean_unfold.
  destruct (bucket_range k H) as [->|[->|[->|[->|[->|[->|[->|[->|[->| ->]]]]]]]]];
    cbn; lra.
Qed.

Lemma weighted_variance_delta (k : nat) :
  (1 <= k <= 10)%nat -> weighted_variance (INR k) (delta k) = 0.
Proof.
  intros H. unfold weighted_variance, sum_buckets, bucket.
  destruct (bucket_range k H) as [->|[->|[->|[->|[->|[->|[->|[->|[->| ->]]]]]]]]];
    cbn; lra.
Qed.

Lemma weighted_mean_uniform : weighted_mean uniform = 11 / 2.
Proof. rewrite weighted_mean_unfold. cbn. lra. Qed.

Lemma weighted_variance_uniform : weighted_variance (11 / 2) uniform = 33 / 4.
Proof. unfold weighted_variance, sum_buckets, bucket. cbn. lra. Qed.

Lemma population_std_buckets :
  population_std [1; 2; 3; 4; 5; 6; 7; 8; 9; 10] = sqrt (33 / 4).
Proof. unfold population_std. cbn. f_equal. lra. Qed.

Lemma sqrt_between (lo hi x : R) :
  0 <= lo -> lo * lo < x -> x < hi * hi -> 0 <= hi -> lo < sqrt x < hi.
Proof.
  intros Hlo Hl Hh Hhi. split.
  - rewrite <- (sqrt_square lo Hlo). apply sqrt_lt_1_alt. nra.
  - rewrite <- (sqrt_square hi Hhi). apply sqrt_lt_1_alt. nra.
Qed.

End StatisticsFacts.

Section StatisticsClaims.
Local Open Scope R_scope.

(** C1.  On every array [p] of ten values [get_mean_score] returns the sum
    of the values weighted by their one-based bucket index: the first value
    has weight 1 and the tenth weight 10.  On the distribution that puts
    mass 1.0 on bucket [k] and 0 elsewhere it returns exactly [k], for every
    [k] from 1 to 10. *)
Theorem get_mean_score_bucket_weighted (p : ndarray) (k : nat) :
  length p = 10%nat ->
  (1 <= k <= 10)%nat ->
  get_mean_score p = Ok (weighted_mean p) /\
  weighted_mean p =
    1 * nth 0 p 0 + 2 * nth 1 p 0 + 3 * nth 2 p 0 + 4 * nth 3 p 0
    + 5 * nth 4 p 0 + 6 * nth 5 p 0 + 7 * nth 6 p 0 + 8 * nth 7 p 0
    + 9 * nth 8 p 0 + 10 * nth 9 p 0 /\
  get_mean_score (delta k) = Ok (INR k).
Proof.
  intros Hp Hk. split; [|split].
  - by apply get_mean_score_weighted.
  - apply weighted_mean_unfold.
  - rewrite (get_mean_score_weighted _ (delta_length k)).
    f_equal. by apply weighted_mean_delta.
Qed.

Lemma get_mean_score_bucket_weighted_witness :
  get_mean_score uniform = Ok (weighted_mean uniform) /\
  weighted_mean uniform =
    1 * nth 0 uniform 0 + 2 * nth 1 uniform 0 + 3 * nth 2 uniform 0
    + 4 * nth 3 uniform 0 + 5 * nth 4 uniform 0 + 6 * nth 5 uniform 0
    + 7 * nth 6 uniform 0 + 8 * nth 7 uniform 0 + 9 * nth 8 uniform 0
    + 10 * nth 9 uniform 0 /\
  get_mean_score (delta 3) = Ok (INR 3).
Proof.
  apply (get_mean_score_bucket_weighted uniform 3); [reflexivity | lia].
Defined.

(** C2.  On every array [p] of ten values [get_std_score] returns the square
    root of [Σ_i (i − mean)² · p[i]], where [mean] is what [get_mean_score]
    returns on [p].  On every delta distribution it returns 0, and on the
    uniform distribution it returns the population standard deviation of
    [{1, ..., 10}], which lies within 0.0001 of 2.8723. *)
Theorem get_std_score_weighted_deviation (p : ndarray) (k : nat) :
  length p = 10%nat ->
  (1 <= k <= 10)%nat ->
  (exists mean,
      get_mean_score p = Ok mean /\
      get_std_score p = Ok (sqrt (weighted_variance mean p))) /\
  get_std_score (delta k) = Ok 0 /\
  get_std_score uniform = Ok (population_std [1; 2; 3; 4; 5; 6; 7; 8; 9; 10]) /\
  2.8722 < population_std [1; 2; 3; 4; 5; 6; 7; 8; 9; 10] < 2.8724.
Proof.
  intros Hp Hk. split; [|split; [|split]].
  - exists (weighted_mean p). split.
    + by apply get_mean_score_weighted.
    + by apply get_std_score_weighted.
  - rewrite (get_std_score_weighted _ (delta_length k)).
    rewrite (weighted_mean_delta k Hk), (weighted_variance_delta k Hk).
    by rewrite sqrt_0.
  - rewrite (get_std_score_weighted uniform) by reflexivity.
    by rewrite weighted_mean_uniform, weighted_variance_uniform,
      population_std_buckets.
  - rewrite population_std_buckets. apply sqrt_between; lra.
Qed.

Lemma get_std_score_weighted_deviation_witness :
  (exists mean,
      get_mean_score (delta 7) = Ok mean /\
      get_std_score (delta 7) = Ok (sqrt (weighted_variance mean (delta 7)))) /\
  get_std_score (delta 4) = Ok 0 /\
  get_std_score uniform = Ok (population_std [1; 2; 3; 4; 5; 6; 7; 8; 9; 10]) /\
  2.8722 < population_std [1; 2; 3; 4; 5; 6; 7; 8; 9; 10] < 2.8724.
Proof.
  apply (get_std_score_weighted_deviation (delta 7) 4); [reflexivity | lia].
Defined.

Lemma weighted_mean_bounds (p : ndarray) :
  ScoreDistribution p -> 1 <= weighted_mean p <= 10.
Proof.
  intros (Hlen & Hpos & Hsum).
  destruct (ten_elements p Hlen) as (p1&p2&p3&p4&p5&p6&p7&p8&p9&p10&->).
  rewrite weighted_mean_unfold.
  repeat (apply Forall_cons_1 in Hpos as [? Hpos]).
  cbn in *. lra.
Qed.

Lemma weighted_variance_nonneg (m : R) (p : ndarray) :
  ScoreDistribution p -> 0 <= weighted_variance m p.
Proof.
  intros (Hlen & Hpos & Hsum).
  destruct (ten_elements p Hlen) as (p1&p2&p3&p4&p5&p6&p7&p8&p9&p10&->).
  repeat (apply Forall_cons_1 in Hpos as [? Hpos]).
  unfold weighted_variance, sum_buckets, bucket. cbn -[pow INR].
  repeat apply Rplus_le_le_0_compat;
    solve [ apply Rmult_le_pos; [apply pow2_ge_0 | assumption] | lra ].
Qed.

(** C3.  For every ScoreDistribution [p] (ten non-negative values that sum
    to one) both statistics return, the mean lies between 1 and 10, and the
    standard deviation is non-negative (its radicand is non-negative, so
    the square root is a proper one).  The two are functions of [p] and of
    nothing else: neither takes or changes any state. *)
Theorem score_summary_range (p : ndarray) :
  ScoreDistribution p ->
  exists mean std,
    get_mean_score p = Ok mean /\
    get_std_score p = Ok std /\
    1 <= mean <= 10 /\
    0 <= weighted_variance mean p /\
    std = sqrt (weighted_variance mean p) /\
    0 <= std.
Proof.
  intros Hp. pose proof Hp as (Hlen & _).
  exists (weighted_mean p), (sqrt (weighted_variance (weighted_mean p) p)).
  split; [by apply get_mean_score_weighted|].
  split; [by apply get_std_score_weighted|].
  split; [by apply weighted_mean_bounds|].
  split; [by apply weighted_variance_nonneg|].
  split; [reflexivity | apply sqrt_pos].
Qed.

Lemma uniform_ScoreDistribution : ScoreDistribution uniform.
Proof.
  split; [reflexivity | split].
  - unfold uniform. cbn. repeat (constructor; [lra|]). constructor.
  - cbn. lra.
Qed.

Lemma score_summary_range_witness :
  exists mean std,
    get_mean_score uniform = Ok mean /\
    get_std_score uniform = Ok std /\
    1 <= mean <= 10 /\
    0 <= weighted_variance mean uniform /\
    std = sqrt (weighted_variance mean uniform) /\
    0 <= std.
Proof.
  apply (score_summary_range uniform). apply uniform_ScoreDistribution.
Defined.

End StatisticsClaims.

(** ** Inverted-residual blocks *)

Section BlockFacts.
Local Open Scope Z_scope.

Lemma stride_checked (stride : Z) :
  bool_decide (stride ∈ [1; 2]) = true <-> stride = 1 \/ stride = 2.
Proof.
  rewrite bool_decide_eq_true. split.
  - intros Hs. apply elem_of_cons in Hs as [->|Hs]; [by left|].
    apply elem_of_cons in Hs as [->|Hs]; [by right|].
    by apply elem_of_nil in Hs.
  - intros [-> | ->]; [left | right; left].
Qed.

Lemma InvertedResidual_init_cases (inp oup stride expand_ratio : Z) :
  InvertedResidual_init inp oup stride expand_ratio
  = if bool_decide (stride ∈ [1; 2])
    then _ <~ layers_check
                (ir_conv (built_block (inp, oup, stride, expand_ratio))) ;;
         Ok (built_block (inp, oup, stride, expand_ratio))
    else Raise AssertionError.
Proof. reflexivity. Qed.

Lemma InvertedResidual_init_ok (inp oup stride expand_ratio : Z) :
  stride = 1 \/ stride = 2 ->
  layers_check (ir_conv (built_block (inp, oup, stride, expand_ratio)))
  = Ok tt ->
  InvertedResidual_init inp oup stride expand_ratio
  = Ok (built_block (inp, oup, stride, expand_ratio)).
Proof.
  intros Hs Hcheck. rewrite InvertedResidual_init_cases.
  apply stride_checked in Hs. by rewrite Hs, Hcheck.
Qed.

Lemma InvertedResidual_init_inv (inp oup stride expand_ratio : Z)
    (b : InvertedResidual) :
  InvertedResidual_init inp oup stride expand_ratio = Ok b ->
  (stride = 1 \/ stride = 2) /\
  b = built_block (inp, oup, stride, expand_ratio).
Proof.
  rewrite InvertedResidual_init_cases.
  destruct (bool_decide (stride ∈ [1; 2])) eqn:Hs; [|discriminate].
  apply stride_checked in Hs.
  destruct (layers_check _) as [[]|e]; [|discriminate].
  by intros [= <-].
Qed.

Lemma layer_check_no_assert (l : layer) :
  layer_check l <> Raise AssertionError.
Proof.
  destruct l; cbn; try discriminate;
    repeat (match goal with |- context [if ?c then _ else _] => destruct c end);
    discriminate.
Qed.

Lemma layers_check_no_assert (ls : list layer) :
  layers_check ls <> Raise AssertionError.
Proof.
  induction ls as [|l ls IH]; [discriminate|]. cbn [layers_check].
  pose proof (layer_check_no_assert l) as Hl.
  destruct (layer_check l) as [[]|e]; cbn [rbind]; [exact IH | exact Hl].
Qed.

Lemma InvertedResidual_init_no_assert (inp oup stride expand_ratio : Z) :
  stride = 1 \/ stride = 2 ->
  InvertedResidual_init inp oup stride expand_ratio <> Raise AssertionError.
Proof.
  intros Hs. rewrite InvertedResidual_init_cases.
  apply stride_checked in Hs. rewrite Hs.
  pose proof (layers_check_no_assert
                (ir_conv (built_block (inp, oup, stride, expand_ratio))))
    as Hcheck.
  destruct (layers_check
              (ir_conv (built_block (inp, oup, stride, expand_ratio))))
    as [[]|e]; cbn [rbind]; [discriminate|].
  intros [= ->]. by apply Hcheck.
Qed.

Lemma InvertedResidual_init_raise (inp oup stride expand_ratio : Z) :
  stride <> 1 -> stride <> 2 ->
  InvertedResidual_init inp oup stride expand_ratio = Raise AssertionError.
Proof.
  intros H1 H2. unfold InvertedResidual_init.
  rewrite bool_decide_eq_false_2; [reflexivity|].
  intros Hs. apply elem_of_cons in Hs as [->|Hs]; [done|].
  apply elem_of_cons in Hs as [->|Hs]; [done|].
  by apply elem_of_nil in Hs.
Qed.

Lemma torch_add_same_shape
    (broadcast_add : tensor -> tensor -> result tensor) (x y : tensor) :
  shape x = shape y ->
  torch_add broadcast_add x y
  = Ok {| shape := shape x; data := zip_with Rplus (data x) (data y) |}.
Proof. intros H. unfold torch_add. by rewrite decide_True. Qed.

(** C4.  For a block built with parameters [(inp, oup, stride,
    expand_ratio)] and every input [x]: when [stride = 1] and [inp = oup],
    [forward] evaluates the projection path [self.conv] on [x] and returns
    [x] plus its result, which for a result of the shape of [x] is the
    elementwise sum; otherwise [forward] returns what the projection path
    returns, unmodified. *)
Theorem InvertedResidual_forward_shortcut
    (broadcast_add : tensor -> tensor -> result tensor)
    (self_conv : tensor -> result tensor)
    (inp oup stride expand_ratio : Z) (self : InvertedResidual)
    (x : tensor) :
  InvertedResidual_init inp oup stride expand_ratio = Ok self ->
  (stride = 1 /\ inp = oup ->
     InvertedResidual_forward broadcast_add self_conv self x
     = (y <~ self_conv x ;; torch_add broadcast_add x y) /\
     forall y, self_conv x = Ok y -> shape y = shape x ->
       InvertedResidual_forward broadcast_add self_conv self x
       = Ok {| shape := shape x;
               data := zip_with Rplus (data x) (data y) |}) /\
  (~ (stride = 1 /\ inp = oup) ->
     InvertedResidual_forward broadcast_add self_conv self x = self_conv x).
Proof.
  intros Hinit. apply InvertedResidual_init_inv in Hinit as [_ ->].
  unfold InvertedResidual_forward. cbn [built_block use_res_connect].
  split.
  - intros [-> ->]. rewrite !Z.eqb_refl. cbn [andb]. split; [reflexivity|].
    intros y Hy Hshape. rewrite Hy. cbn [rbind].
    by apply torch_add_same_shape.
  - intros Hn.
    destruct (Z.eqb_spec stride 1) as [Hs|Hs];
      destruct (Z.eqb_spec inp oup) as [Hc|Hc]; cbn [andb];
      try reflexivity.
    by destruct Hn.
Qed.

Lemma InvertedResidual_forward_shortcut_witness :
  (1 = 1 /\ 24 = 24 ->
     InvertedResidual_forward sample_broadcast_add sample_conv
       (built_block (24, 24, 1, 6)) sample_tensor
     = (y <~ sample_conv sample_tensor ;;
        torch_add sample_broadcast_add sample_tensor y) /\
     forall y, sample_conv sample_tensor = Ok y ->
       shape y = shape sample_tensor ->
       InvertedResidual_forward sample_broadcast_add sample_conv
         (built_block (24, 24, 1, 6)) sample_tensor
       = Ok {| shape := shape sample_tensor;
               data := zip_with Rplus (data sample_tensor) (data y) |}) /\
  (~ (1 = 1 /\ 24 = 24) ->
     InvertedResidual_forward sample_broadcast_add sample_conv
       (built_block (24, 24, 1, 6)) sample_tensor
     = sample_conv sample_tensor).
Proof.
  apply (InvertedResidual_forward_shortcut sample_broadcast_add sample_conv
           24 24 1 6 (built_block (24, 24, 1, 6)) sample_tensor).
  reflexivity.
Defined.

End BlockFacts.

(** ** Construction of the backbone *)

Section ConstructionFacts.
Local Open Scope Z_scope.

Lemma repeat_body_later (oc t : Z) (s : Z) (l : list Z) (feats : list module)
    (st : build_state) :
  Forall (fun i => i <> 0) l ->
  for_each (repeat_body oc s t) l (oc, feats) = Ok st ->
  st = (oc, feats ++ repeat (Block (built_block (oc, oc, 1, t))) (length l)) /\
  Forall constructed (repeat (oc, oc, 1, t) (length l)).
Proof.
  intros Hl. revert feats.
  induction Hl as [|i l Hi _ IH]; intros feats; cbn [for_each length repeat].
  - intros [= <-]. by rewrite app_nil_r.
  - unfold repeat_body at 1. apply Z.eqb_neq in Hi. rewrite Hi.
    destruct (InvertedResidual_init oc oc 1 t) as [b|e] eqn:Hb; [|discriminate].
    pose proof Hb as Hb'. apply InvertedResidual_init_inv in Hb' as [_ ->].
    cbn [rbind]. intros Hrest. apply IH in Hrest as [-> Hall].
    split; [by rewrite <- app_assoc|]. by constructor.
Qed.

Lemma py_range_cons (n : Z) (k : nat) :
  Z.to_nat n = S k ->
  py_range n = 0 :: ((fun i : nat => Z.of_nat i + 0) <$> seq 1 k).
Proof. intros H. unfold py_range, seqZ. by rewrite H. Qed.

Lemma py_range_nil (n : Z) : Z.to_nat n = O -> py_range n = [].
Proof. intros H. unfold py_range, seqZ. by rewrite H. Qed.

Lemma later_indices_nonzero (k : nat) :
  Forall (fun i => i <> 0) ((fun i : nat => Z.of_nat i + 0) <$> seq 1 k).
Proof.
  apply Forall_fmap, Forall_forall. intros i Hi.
  apply elem_of_seq in Hi. cbn. lia.
Qed.

(** One stage of the table: when the inner loop returns, it has appended
    the blocks that the specification lists for the stage, each by a call
    of the block constructor that returned. *)
Lemma stage_body_blocks (width_mult : Q) (ic : Z) (feats : list module)
    (row : Z * Z * Z * Z) (st : build_state) :
  stage_body width_mult (ic, feats) row = Ok st ->
  st = (stage_output ic (scale_row width_mult row),
        feats ++ map (fun a => Block (built_block a))
                     (stage_blocks ic (scale_row width_mult row))) /\
  Forall constructed (stage_blocks ic (scale_row width_mult row)).
Proof.
  destruct row as [[[t c] n] s].
  unfold stage_body, scale_row, stage_blocks, stage_output.
  set (oc := py_int (inject_Z c * width_mult)).
  destruct (Z.to_nat n) as [|k] eqn:Hn.
  - rewrite (py_range_nil n Hn). cbn [for_each map]. intros [= <-].
    rewrite app_nil_r. replace (0 <? n) with false; [done|].
    symmetry. apply Z.ltb_ge. lia.
  - rewrite (py_range_cons n k Hn). cbn [for_each].
    unfold repeat_body at 1. cbn [Z.eqb].
    destruct (InvertedResidual_init ic oc s t) as [b|e] eqn:Hb; [|discriminate].
    pose proof Hb as Hb'. apply InvertedResidual_init_inv in Hb' as [_ ->].
    cbn [rbind]. intros Hrest.
    apply repeat_body_later in Hrest as [-> Hall];
      [|apply later_indices_nonzero].
    rewrite length_fmap, length_seq in *.
    replace (0 <? n) with true by (symmetry; apply Z.ltb_lt; lia).
    split; [|by constructor].
    cbn [map]. by rewrite map_repeat, <- app_assoc.
Qed.

(** The outer loop over the table. *)
Lemma table_blocks_built (width_mult : Q) (rows : list (Z * Z * Z * Z)) :
  forall (ic : Z) (feats : list module) (st : build_state),
    for_each (stage_body width_mult) rows (ic, feats) = Ok st ->
    st = (table_output ic (map (scale_row width_mult) rows),
          feats ++ map (fun a => Block (built_block a))
                       (table_blocks ic (map (scale_row width_mult) rows))) /\
    Forall constructed (table_blocks ic (map (scale_row width_mult) rows)).
Proof.
  induction rows as [|row rows IH]; intros ic feats st;
    cbn [for_each map table_blocks table_output].
  - intros [= <-]. by rewrite app_nil_r.
  - destruct (stage_body width_mult (ic, feats) row) as [st1|e] eqn:Hrow;
      [|discriminate].
    apply stage_body_blocks in Hrow as [-> Hstage]. cbn [rbind].
    intros Hrest. apply IH in Hrest as [-> Hall].
    split; [by rewrite map_app, app_assoc|].
    apply Forall_app. by split.
Qed.

Lemma default_setting_strides : Forall stride_ok default_setting.
Proof. unfold default_setting. repeat (constructor; [cbn; lia|]). constructor. Qed.

(** When the constructor returns, the size passed the assertion and the
    network is the one of the closed form, every block of which was built
    by a call of the block constructor that returned. *)
Lemma MobileNetV2_init_inv (n_class input_size : Z) (width_mult : Q)
    (m : MobileNetV2) :
  MobileNetV2_init n_class input_size width_mult = Ok m ->
  input_size `mod` 32 = 0 /\
  m = built_network n_class input_size width_mult /\
  Forall constructed
         (table_blocks (py_int (32 * width_mult))
                       (map (scale_row width_mult) default_setting)).
Proof.
  unfold MobileNetV2_init.
  destruct (input_size `mod` 32 =? 0) eqn:Hmod; [|discriminate].
  apply Z.eqb_eq in Hmod.
  destruct (layers_check (conv_bn _ _ _)) as [[]|e]; [|discriminate].
  cbn [rbind].
  destruct (for_each _ _ _) as [st|e] eqn:Hloop; [|discriminate].
  apply table_blocks_built in Hloop as [-> Hall]. cbn [rbind].
  destruct (layers_check (conv_1x1_bn _ _)) as [[]|e]; [|discriminate].
  cbn [rbind].
  destruct (layers_check [_; _]) as [[]|e]; [|discriminate].
  cbn [rbind].
  destruct (initialize_weights _) as [[]|e]; [|discriminate].
  cbn [rbind]. intros [= <-].
  split; [exact Hmod|]. split; [|exact Hall].
  unfold built_network. by rewrite <- !app_assoc.
Qed.

Lemma MobileNetV2_init_bad_size (n_class input_size : Z) (width_mult : Q) :
  input_size `mod` 32 <> 0 ->
  MobileNetV2_init n_class input_size width_mult = Raise AssertionError.
Proof.
  intros Hmod. unfold MobileNetV2_init.
  apply Z.eqb_neq in Hmod. by rewrite Hmod.
Qed.

Lemma blocks_of_built (l : list (Z * Z * Z * Z)) :
  blocks_of (map (fun a => Block (built_block a)) l) = map built_block l.
Proof. induction l as [|a l IH]; [done|]. cbn. by rewrite <- IH. Qed.

Lemma blocks_of_built_network (n_class input_size : Z) (width_mult : Q) :
  blocks_of (features (built_network n_class input_size width_mult))
  = map built_block
        (table_blocks (py_int (32 * width_mult))
                      (map (scale_row width_mult) default_setting)).
Proof.
  unfold built_network, blocks_of. cbn [features].
  rewrite !omap_app. cbn [omap]. fold (@blocks_of).
  change (omap _ (map ?f ?l)) with (blocks_of (map f l)).
  rewrite blocks_of_built. cbn. by rewrite app_nil_r.
Qed.

Lemma chained_stage (ic : Z) (row : Z * Z * Z * Z)
    (rest : list (Z * Z * Z * Z)) :
  chained (stage_output ic row) rest ->
  chained ic (stage_blocks ic row ++ rest).
Proof.
  destruct row as [[[t c] n] s]. unfold stage_output, stage_blocks.
  destruct (Z.to_nat n) as [|k] eqn:Hn.
  - replace (0 <? n) with false by (symmetry; apply Z.ltb_ge; lia). done.
  - replace (0 <? n) with true by (symmetry; apply Z.ltb_lt; lia).
    intros Hrest. cbn. split; [done|].
    clear Hn. induction k as [|k IH]; cbn; [done|]. by split.
Qed.

Lemma chained_table (rows : list (Z * Z * Z * Z)) (ic : Z) :
  chained ic (table_blocks ic rows).
Proof.
  revert ic. induction rows as [|row rows IH]; intros ic; [done|].
  cbn [table_blocks]. apply chained_stage, IH.
Qed.

End ConstructionFacts.

Section ConstructionClaims.
Local Open Scope Z_scope.

Lemma scale_default_setting_1 :
  map (scale_row 1) default_setting = default_setting.
Proof. reflexivity. Qed.

(** C5.  With width multiplier 1 the constructor records the stage table
    [(1,16,1,1), (6,24,2,2), (6,32,3,2), (6,64,4,2), (6,96,3,1), (6,160,3,2),
    (6,320,1,1)] and its inverted-residual blocks are, in order, the ones the
    table prescribes: for each stage [(t, c, n, s)], [n] blocks with
    expansion ratio [t] and [c] output channels, the first with stride [s]
    and the later ones with stride 1; each block's input channel count is
    the output channel count of the block before it, the first block taking
    the 32 channels of the stem. *)
Theorem MobileNetV2_blocks_follow_table (n_class input_size : Z)
    (m : MobileNetV2) :
  MobileNetV2_init n_class input_size 1 = Ok m ->
  interverted_residual_setting m
  = [ (1, 16, 1, 1); (6, 24, 2, 2); (6, 32, 3, 2); (6, 64, 4, 2);
      (6, 96, 3, 1); (6, 160, 3, 2); (6, 320, 1, 1) ] /\
  Forall2 (fun b '(inp, oup, stride, t) =>
             InvertedResidual_init inp oup stride t = Ok b)
          (blocks_of (features m))
          (table_blocks 32 (interverted_residual_setting m)) /\
  table_blocks 32 (interverted_residual_setting m)
  = [ (32, 16, 1, 1);
      (16, 24, 2, 6); (24, 24, 1, 6);
      (24, 32, 2, 6); (32, 32, 1, 6); (32, 32, 1, 6);
      (32, 64, 2, 6); (64, 64, 1, 6); (64, 64, 1, 6); (64, 64, 1, 6);
      (64, 96, 1, 6); (96, 96, 1, 6); (96, 96, 1, 6);
      (96, 160, 2, 6); (160, 160, 1, 6); (160, 160, 1, 6);
      (160, 320, 1, 6) ] /\
  chained 32 (table_blocks 32 (interverted_residual_setting m)).
Proof.
  intros Hinit. apply MobileNetV2_init_inv in Hinit as (_ & -> & Hall).
  rewrite scale_default_setting_1 in Hall.
  change (py_int (32 * 1)) with 32 in Hall.
  split; [reflexivity|]. split; [|split].
  - rewrite blocks_of_built_network, scale_default_setting_1.
    change (py_int (32 * 1)) with 32.
    cbn [interverted_residual_setting built_network].
    apply Forall2_fmap_l, Forall_Forall2_diag.
    eapply Forall_impl; [exact Hall|].
    intros [[[inp oup] stride] t] Hcall. exact Hcall.
  - reflexivity.
  - apply chained_table.
Qed.

Lemma MobileNetV2_blocks_follow_table_witness :
  interverted_residual_setting (built_network 1000 224 1)
  = [ (1, 16, 1, 1); (6, 24, 2, 2); (6, 32, 3, 2); (6, 64, 4, 2);
      (6, 96, 3, 1); (6, 160, 3, 2); (6, 320, 1, 1) ] /\
  Forall2 (fun b '(inp, oup, stride, t) =>
             InvertedResidual_init inp oup stride t = Ok b)
          (blocks_of (features (built_network 1000 224 1)))
          (table_blocks 32
             (interverted_residual_setting (built_network 1000 224 1))) /\
  table_blocks 32 (interverted_residual_setting (built_network 1000 224 1))
  = [ (32, 16, 1, 1);
      (16, 24, 2, 6); (24, 24, 1, 6);
      (24, 32, 2, 6); (32, 32, 1, 6); (32, 32, 1, 6);
      (32, 64, 2, 6); (64, 64, 1, 6); (64, 64, 1, 6); (64, 64, 1, 6);
      (64, 96, 1, 6); (96, 96, 1, 6); (96, 96, 1, 6);
      (96, 160, 2, 6); (160, 160, 1, 6); (160, 160, 1, 6);
      (160, 320, 1, 6) ] /\
  chained 32
    (table_blocks 32
       (interverted_residual_setting (built_network 1000 224 1))).
Proof.
  apply (MobileNetV2_blocks_follow_table 1000 224 (built_network 1000 224 1)).
  reflexivity.
Defined.

End ConstructionClaims.

Section InputSizeClaims.
Local Open Scope Z_scope.

Lemma stage_blocks_strides (ic : Z) (row : Z * Z * Z * Z) :
  stride_ok row -> Forall stride_arg_ok (stage_blocks ic row).
Proof.
  destruct row as [[[t c] n] s]. cbn. intros Hs.
  destruct (Z.to_nat n) as [|k]; constructor; [exact Hs|].
  apply Forall_forall. intros a Ha.
  apply list_elem_of_In, repeat_spec in Ha as ->. by left.
Qed.

Lemma table_blocks_strides (rows : list (Z * Z * Z * Z)) :
  Forall stride_ok rows ->
  forall ic, Forall stride_arg_ok (table_blocks ic rows).
Proof.
  induction 1 as [|row rows Hrow _ IH]; intros ic; cbn [table_blocks].
  - constructor.
  - apply Forall_app. split; [by apply stage_blocks_strides | apply IH].
Qed.

Lemma scale_row_strides (width_mult : Q) (rows : list (Z * Z * Z * Z)) :
  Forall stride_ok rows -> Forall stride_ok (map (scale_row width_mult) rows).
Proof.
  intros H. apply Forall_fmap. eapply Forall_impl; [exact H|].
  intros [[[t c] n] s]. done.
Qed.

Lemma built_network_last (n_class input_size : Z) (width_mult : Q) :
  last (features (built_network n_class input_size width_mult))
  = Some (Leaf (AvgPool2d (input_size `div` 32))).
Proof.
  unfold built_network. cbn [features].
  by rewrite app_assoc, last_snoc.
Qed.

(** C10 as stated fails: the assertion admits [input_size = 0], for which
    construction succeeds and the pooling kernel size is [0 // 32 = 0], not
    a positive integer. *)
Lemma avgpool_kernel_zero_input_size :
  ~ (forall (n_class input_size : Z) (width_mult : Q) (m : MobileNetV2),
        input_size `mod` 32 = 0 ->
        MobileNetV2_init n_class input_size width_mult = Ok m ->
        exists k, last (features m) = Some (Leaf (AvgPool2d k)) /\ 0 < k).
Proof.
  intros H.
  destruct (H 1000 0 1%Q (built_network 1000 0 1)) as (k & Hk & Hpos);
    [reflexivity | reflexivity |].
  rewrite built_network_last in Hk. injection Hk as <-.
  vm_compute in Hpos. discriminate.
Qed.

Lemma for_each_no_assert {A S : Type} (body : S -> A -> result S)
    (xs : list A) :
  Forall (fun x => forall st, body st x <> Raise AssertionError) xs ->
  forall st, for_each body xs st <> Raise AssertionError.
Proof.
  induction 1 as [|x xs Hx _ IH]; intros st; cbn [for_each]; [discriminate|].
  specialize (Hx st). destruct (body st x) as [st'|e]; cbn [rbind];
    [apply IH | exact Hx].
Qed.

Lemma repeat_body_no_assert (oc s t : Z) (st : build_state) (i : Z) :
  s = 1 \/ s = 2 -> repeat_body oc s t st i <> Raise AssertionError.
Proof.
  intros Hs. destruct st as [ic feats]. unfold repeat_body.
  assert (Hcall : forall stride, stride = 1 \/ stride = 2 ->
            (blk <~ InvertedResidual_init ic oc stride t ;;
             Ok (oc, feats ++ [Block blk]))
            <> (Raise AssertionError : result build_state)).
  { intros stride Hstride.
    pose proof (InvertedResidual_init_no_assert ic oc stride t Hstride) as Hb.
    destruct (InvertedResidual_init ic oc stride t) as [b|e]; cbn [rbind];
      [discriminate|].
    intros [= ->]. by apply Hb. }
  destruct (i =? 0); apply Hcall; [exact Hs | by left].
Qed.

Lemma stage_body_no_assert (width_mult : Q) (row : Z * Z * Z * Z)
    (st : build_state) :
  stride_ok row -> stage_body width_mult st row <> Raise AssertionError.
Proof.
  destruct row as [[[t c] n] s]. intros Hs. unfold stage_body.
  apply for_each_no_assert, Forall_forall. intros i _ st'.
  by apply repeat_body_no_assert.
Qed.

Lemma initialize_weights_no_assert (ms : list module) :
  initialize_weights ms <> Raise AssertionError.
Proof.
  unfold initialize_weights. apply for_each_no_assert, Forall_forall.
  intros l _ []. destruct l; cbn; try discriminate.
  repeat (match goal with |- context [if ?c then _ else _] => destruct c end);
    discriminate.
Qed.

(** With a size that passes the assertion the constructor raises no
    [AssertionError]: the strides of the table pass the assertion of the
    block. *)
Lemma MobileNetV2_init_no_assert (n_class input_size : Z) (width_mult : Q) :
  input_size `mod` 32 = 0 ->
  MobileNetV2_init n_class input_size width_mult <> Raise AssertionError.
Proof.
  intros Hmod. unfold MobileNetV2_init.
  apply Z.eqb_eq in Hmod. rewrite Hmod.
  pose proof (layers_check_no_assert
                (conv_bn 3 (py_int (32 * width_mult)) 2)) as Hstem.
  destruct (layers_check (conv_bn 3 (py_int (32 * width_mult)) 2))
    as [[]|e]; cbn [rbind]; [|intros [= ->]; by apply Hstem].
  match goal with
  | |- context [for_each ?body ?rows ?st] =>
      pose proof (for_each_no_assert body rows) as Hloop;
      destruct (for_each body rows st) as [[ic feats]|e] eqn:Hrun
  end; cbn [rbind].
  - clear Hloop Hrun.
    match goal with
    | |- context [layers_check (conv_1x1_bn ?a ?b)] =>
        pose proof (layers_check_no_assert (conv_1x1_bn a b)) as Htail;
        destruct (layers_check (conv_1x1_bn a b)) as [[]|e]
    end; cbn [rbind]; [|intros [= ->]; by apply Htail].
    match goal with
    | |- context [layers_check [?a; ?b]] =>
        pose proof (layers_check_no_assert [a; b]) as Hcls;
        destruct (layers_check [a; b]) as [[]|e]
    end; cbn [rbind]; [|intros [= ->]; by apply Hcls].
    match goal with
    | |- context [initialize_weights ?ms] =>
        pose proof (initialize_weights_no_assert ms) as Hinit;
        destruct (initialize_weights ms) as [[]|e]
    end; cbn [rbind]; [discriminate | intros [= ->]; by apply Hinit].
  - intros [= ->]. eapply Hloop; [|exact Hrun].
    eapply Forall_impl; [apply default_setting_strides|].
    intros row Hrow st. by apply stage_body_no_assert.
Qed.

(** At width multiplier 1, with a positive number of classes, the
    constructor returns for every size that passes the assertion. *)
Lemma MobileNetV2_init_width_1 (n_class input_size : Z) :
  0 < n_class ->
  input_size `mod` 32 = 0 ->
  MobileNetV2_init n_class input_size 1
  = Ok (built_network n_class input_size 1).
Proof.
  intros Hn Hmod. unfold MobileNetV2_init.
  apply Z.eqb_eq in Hmod. rewrite Hmod.
  change (layers_check (conv_bn 3 (py_int (32 * 1)) 2)) with (Ok tt).
  cbn [rbind].
  assert (Hloop :
    for_each (stage_body 1) default_setting
      (py_int (32 * 1), [Sequential (conv_bn 3 (py_int (32 * 1)) 2)])
    = Ok (320,
          [Sequential (conv_bn 3 32 2)]
          ++ map (fun a => Block (built_block a))
                 (table_blocks 32 default_setting))) by reflexivity.
  rewrite Hloop. cbn [rbind].
  change (layers_check (conv_1x1_bn 320 1280)) with (Ok tt).
  assert (Hcls : layers_check [Dropout (1 # 2); Linear 1280 n_class] = Ok tt).
  { cbn. replace (n_class <? 0) with false; [reflexivity|].
    symmetry. apply Z.ltb_ge. lia. }
  destruct (Qlt_le_dec 1 1) as [Hlt | _]; [by apply Qlt_irrefl in Hlt|].
  rewrite Hcls. cbn [rbind].
  match goal with
  | |- context [initialize_weights ?ms] =>
      assert (Hw : initialize_weights ms = Ok tt) by (vm_compute; reflexivity)
  end.
  rewrite Hw. cbn [rbind]. unfold built_network.
  destruct (Qlt_le_dec 1 1) as [Hlt | _]; [by apply Qlt_irrefl in Hlt|].
  reflexivity.
Qed.

(** C10, amended.  The constructor raises [AssertionError] for every
    [input_size] that is not a multiple of 32.  For a multiple of 32 it
    raises no [AssertionError], whatever the width multiplier: every stride
    that the stage table passes to a block is 1 or 2 and passes the
    assertion of the block.  The kernel size [input_size // 32] of the
    final pooling is then an integer with [32 * (input_size // 32) =
    input_size], which is positive exactly when [input_size] is positive.
    Whenever the constructor returns a network, its last feature is the
    average pooling with that kernel size and every block has stride 1 or
    2.  At width multiplier 1, with a positive number of classes, it
    returns for every multiple of 32, and the kernel size is 7 for the
    default [input_size] of 224. *)
Theorem MobileNetV2_input_size_assertion (n_class input_size other_size : Z)
    (width_mult : Q) :
  input_size `mod` 32 = 0 ->
  other_size `mod` 32 <> 0 ->
  MobileNetV2_init n_class other_size width_mult = Raise AssertionError /\
  MobileNetV2_init n_class input_size width_mult <> Raise AssertionError /\
  32 * (input_size `div` 32) = input_size /\
  (0 < input_size <-> 0 < input_size `div` 32) /\
  (forall m,
      MobileNetV2_init n_class input_size width_mult = Ok m ->
      last (features m) = Some (Leaf (AvgPool2d (input_size `div` 32))) /\
      Forall (fun b => ir_stride b = 1 \/ ir_stride b = 2)
             (blocks_of (features m))) /\
  (0 < n_class ->
   exists m,
     MobileNetV2_init n_class input_size 1 = Ok m /\
     last (features m) = Some (Leaf (AvgPool2d (input_size `div` 32)))) /\
  Forall stride_ok default_setting /\
  (exists m,
      MobileNetV2_default = Ok m /\
      last (features m) = Some (Leaf (AvgPool2d 7))).
Proof.
  intros Hmul Hother.
  split; [|split; [|split; [|split; [|split; [|split; [|split]]]]]].
  - by apply MobileNetV2_init_bad_size.
  - by apply MobileNetV2_init_no_assert.
  - pose proof (Z.div_mod input_size 32). lia.
  - pose proof (Z.div_mod input_size 32). lia.
  - intros m Hinit. apply MobileNetV2_init_inv in Hinit as (_ & -> & _).
    split; [apply built_network_last|].
    rewrite blocks_of_built_network. apply Forall_fmap.
    eapply Forall_impl.
    + apply table_blocks_strides, scale_row_strides,
        default_setting_strides.
    + intros [[[inp oup] stride] t]. done.
  - intros Hn. exists (built_network n_class input_size 1).
    split; [by apply MobileNetV2_init_width_1 | apply built_network_last].
  - apply default_setting_strides.
  - exists (built_network 1000 224 1). split; reflexivity.
Qed.

Lemma MobileNetV2_input_size_assertion_witness :
  MobileNetV2_init 1000 100 1 = Raise AssertionError /\
  MobileNetV2_init 1000 224 1 <> Raise AssertionError /\
  32 * (224 `div` 32) = 224 /\
  (0 < 224 <-> 0 < 224 `div` 32) /\
  (forall m,
      MobileNetV2_init 1000 224 1 = Ok m ->
      last (features m) = Some (Leaf (AvgPool2d (224 `div` 32))) /\
      Forall (fun b => ir_stride b = 1 \/ ir_stride b = 2)
             (blocks_of (features m))) /\
  (0 < 1000 ->
   exists m,
     MobileNetV2_init 1000 224 1 = Ok m /\
     last (features m) = Some (Leaf (AvgPool2d (224 `div` 32)))) /\
  Forall stride_ok default_setting /\
  (exists m,
      MobileNetV2_default = Ok m /\
      last (features m) = Some (Leaf (AvgPool2d 7))).
Proof.
  apply (MobileNetV2_input_size_assertion 1000 224 100 1);
    [reflexivity | discriminate].
Defined.

End InputSizeClaims.

(** ** The aesthetic head *)

Section HeadFacts.
Local Open Scope R_scope.

Lemma np_sum_scaled (s : R) (e : list R) :
  np_sum (map (fun v => v / s) e) = np_sum e / s.
Proof.
  induction e as [|a e IH]; cbn.
  - unfold Rdiv. ring.
  - unfold np_sum in IH. rewrite IH. unfold Rdiv. ring.
Qed.

Lemma np_sum_exp_nonneg (x : list R) : 0 <= np_sum (map exp x).
Proof.
  induction x as [|a x IH]; cbn; [lra|].
  pose proof (exp_pos a). unfold np_sum in IH. lra.
Qed.

Lemma np_sum_exp_pos (x : list R) : x <> [] -> 0 < np_sum (map exp x).
Proof.
  destruct x as [|a x]; [done|]. intros _. cbn.
  pose proof (exp_pos a). pose proof (np_sum_exp_nonneg x) as Hs.
  unfold np_sum in Hs. lra.
Qed.

Lemma exp_le_np_sum (x : list R) (v : R) :
  v ∈ map exp x -> 0 < v <= np_sum (map exp x).
Proof.
  induction x as [|a x IH]; cbn; intros Hv.
  - by apply elem_of_nil in Hv.
  - pose proof (exp_pos a). pose proof (np_sum_exp_nonneg x) as Hs.
    unfold np_sum in Hs, IH.
    apply elem_of_cons in Hv as [-> | Hv]; [lra|].
    specialize (IH Hv). lra.
Qed.

Lemma softmax_row_length (x : list R) : length (softmax_row x) = length x.
Proof. unfold softmax_row. by rewrite !length_map. Qed.

Lemma softmax_row_range (x : list R) :
  Forall (fun v => 0 <= v <= 1) (softmax_row x).
Proof.
  unfold softmax_row. apply Forall_fmap, Forall_forall. intros v Hv.
  apply exp_le_np_sum in Hv. cbn.
  set (s := np_sum (map exp x)) in *.
  assert (0 < / s) by (apply Rinv_0_lt_compat; lra).
  unfold Rdiv. split; [nra|].
  replace 1 with (s * / s) by (field; lra). nra.
Qed.

Lemma softmax_row_sum (x : list R) : x <> [] -> np_sum (softmax_row x) = 1.
Proof.
  intros Hx. unfold softmax_row. rewrite np_sum_scaled.
  pose proof (np_sum_exp_pos x Hx). field. lra.
Qed.

Lemma linear_row_length (P : linear_params) (n m : Z) (x : list R) :
  linear_shape P n m -> Z.of_nat (length (linear_row P x)) = m.
Proof.
  intros (Hw & Hb & _). unfold linear_row.
  rewrite length_zip_with. lia.
Qed.

Lemma dropout_row_length (p : Q) (keep : nat -> bool) (x : list R) :
  length (dropout_row p keep x) = length x.
Proof. unfold dropout_row. by rewrite length_imap. Qed.

Lemma row_check (n : nat) (x : batch) :
  Forall (fun row => length row = n) x ->
  forallb (fun row => Z.of_nat (length row) =? Z.of_nat n)%Z x = true.
Proof.
  induction 1 as [|row x Hrow _ IH]; [done|].
  cbn. rewrite IH, Hrow, Z.eqb_refl. done.
Qed.

Lemma relu_rows (n : nat) (x : batch) :
  Forall (fun row => length row = n) x ->
  Forall (fun row => length row = n) (map (map relu) x).
Proof.
  intros H. apply Forall_fmap. eapply Forall_impl; [exact H|].
  intros row Hrow. cbn. by rewrite length_map.
Qed.

Lemma dropout_rows (p : Q) (keep : nat -> nat -> bool) (n : nat) (x : batch) :
  Forall (fun row => length row = n) x ->
  Forall (fun row => length row = n)
         (imap (fun i row => dropout_row p (keep i) row) x).
Proof.
  intros H. apply Forall_lookup. intros i row Hi.
  rewrite list_lookup_imap in Hi.
  apply fmap_Some in Hi as (row0 & Hx & ->).
  rewrite dropout_row_length.
  by apply (Forall_lookup_1 _ _ _ _ H Hx).
Qed.

(** Linear layer followed by the softmax over dimension 1, on rows of the
    right width: every output row is a distribution over ten buckets. *)
Lemma linear_softmax_rows (st : head_state) (x : batch) :
  linear_shape (linear st) 1280 10 ->
  Forall (fun row => length row = 1280%nat) x ->
  exists out,
    Sequential_forward st [Linear 1280 10; Softmax 1] x = Ok out /\
    length out = length x /\
    Forall (fun row => length row = 10%nat /\
                       Forall (fun v => 0 <= v <= 1) row /\
                       np_sum row = 1) out.
Proof.
  intros Hshape Hx.
  exists (map softmax_row (map (linear_row (linear st)) x)).
  split; [|split].
  - unfold Sequential_forward. cbn [for_each layer_forward].
    change 1280%Z with (Z.of_nat 1280).
    rewrite (row_check 1280 x Hx). reflexivity.
  - by rewrite !length_map.
  - apply Forall_fmap, Forall_fmap, Forall_forall. intros row _.
    cbn. pose proof (linear_row_length _ _ _ row Hshape) as Hlen.
    split; [|split].
    + rewrite softmax_row_length. lia.
    + apply softmax_row_range.
    + apply softmax_row_sum. intros Hnil. rewrite Hnil in Hlen.
      cbn in Hlen. lia.
Qed.

Lemma row_check_inv (n : nat) (x : batch) :
  forallb (fun row => Z.of_nat (length row) =? Z.of_nat n)%Z x = true ->
  Forall (fun row => length row = n) x.
Proof.
  induction x as [|row x IH]; cbn; intros H; [constructor|].
  apply andb_prop in H as [Hrow Hx]. constructor; [|by apply IH].
  apply Z.eqb_eq in Hrow. lia.
Qed.

(** Whatever the linear layer and the softmax return on a batch is made of
    distributions over ten buckets. *)
Lemma linear_softmax_returns (st : head_state) (x out : batch) :
  linear_shape (linear st) 1280 10 ->
  Sequential_forward st [Linear 1280 10; Softmax 1] x = Ok out ->
  Forall (fun row => length row = 10%nat /\
                     Forall (fun v => 0 <= v <= 1) row /\
                     np_sum row = 1) out.
Proof.
  intros Hshape Hout.
  destruct (forallb (fun row => Z.of_nat (length row) =? Z.of_nat 1280)%Z x)
    eqn:Hcheck.
  - apply row_check_inv in Hcheck.
    destruct (linear_softmax_rows st x Hshape Hcheck) as (out' & H' & _ & Hd).
    rewrite H' in Hout. by injection Hout as <-.
  - unfold Sequential_forward in Hout. cbn [for_each layer_forward] in Hout.
    change 1280%Z with (Z.of_nat 1280) in Hout.
    rewrite Hcheck in Hout. discriminate.
Qed.

End HeadFacts.

Section HeadClaims.
Local Open Scope R_scope.

Variable server : list string -> string -> result response.
Variable state_dict : Type.
Variable unpickle : list Byte.byte -> result state_dict.
Variable accepts : list (list module) -> state_dict -> bool.

Lemma NIMA_init_head (pretrained : bool) (w w' : world) (net : NIMA) :
  NIMA_init server state_dict unpickle accepts pretrained w = (Ok net, w') ->
  head net = [ReLU true; Dropout (3 # 4); Linear 1280 10; Softmax 1].
Proof.
  unfold NIMA_init, bind.
  destruct (mobile_net_v2 _ _ _ _ _ w) as [[m|e] w1]; [|discriminate].
  unfold ret. by intros [= <- _].
Qed.

(** C6.  The head of every [NIMA] that the constructor returns is the
    pipeline ReLU, Dropout with probability 0.75, Linear from 1280 to 10,
    Softmax over dimension 1.  Outside training mode the dropout layer
    returns its input unchanged.  On every batch of 1280-wide rows, in
    either mode and for every value of the parameters of the linear layer,
    the head returns one row per input row, and every row that the head
    returns, on any batch, has ten values, each between 0 and 1, that sum
    to 1. *)
Theorem NIMA_head_distribution (pretrained : bool) (w w' : world)
    (net : NIMA) (st : head_state) (x : batch) :
  NIMA_init server state_dict unpickle accepts pretrained w = (Ok net, w') ->
  linear_shape (linear st) 1280 10 ->
  Forall (fun row => length row = 1280%nat) x ->
  head net = [ReLU true; Dropout (3 # 4); Linear 1280 10; Softmax 1] /\
  (training st = false -> layer_forward st (Dropout (3 # 4)) x = Ok x) /\
  (exists out,
      Sequential_forward st (head net) x = Ok out /\
      length out = length x /\
      Forall (fun row => length row = 10%nat /\
                         Forall (fun v => 0 <= v <= 1) row /\
                         np_sum row = 1) out) /\
  (forall x' out,
      Sequential_forward st (head net) x' = Ok out ->
      Forall (fun row => length row = 10%nat /\
                         Forall (fun v => 0 <= v <= 1) row /\
                         np_sum row = 1) out).
Proof.
  intros Hinit Hshape Hx.
  rewrite (NIMA_init_head _ _ _ _ Hinit).
  split; [reflexivity|]. split; [|split].
  - intros Heval. cbn [layer_forward]. by rewrite Heval.
  - pose proof (relu_rows _ _ Hx) as Hrelu.
    change (Sequential_forward st
              [ReLU true; Dropout (3 # 4); Linear 1280 10; Softmax 1] x)
      with (y <~ layer_forward st (Dropout (3 # 4)) (map (map relu) x) ;;
            Sequential_forward st [Linear 1280 10; Softmax 1] y).
    cbn [layer_forward].
    destruct (training st); cbn [rbind].
    + destruct (linear_softmax_rows st _ Hshape
                  (dropout_rows (3 # 4) (keep_mask st) _ _ Hrelu))
        as (out & Hout & Hlen & Hrows).
      exists out. split; [exact Hout|]. split; [|exact Hrows].
      by rewrite Hlen, length_imap, length_map.
    + destruct (linear_softmax_rows st _ Hshape Hrelu)
        as (out & Hout & Hlen & Hrows).
      exists out. split; [exact Hout|]. split; [|exact Hrows].
      by rewrite Hlen, length_map.
  - intros x' out.
    change (Sequential_forward st
              [ReLU true; Dropout (3 # 4); Linear 1280 10; Softmax 1] x')
      with (y <~ layer_forward st (Dropout (3 # 4)) (map (map relu) x') ;;
            Sequential_forward st [Linear 1280 10; Softmax 1] y).
    cbn [layer_forward].
    destruct (training st); cbn [rbind];
      by apply linear_softmax_returns.
Qed.

End HeadClaims.

Section HeadWitness.
Local Open Scope R_scope.

Lemma sample_head_state_shape : linear_shape (linear sample_head_state) 1280 10.
Proof.
  split; [reflexivity | split; [reflexivity|]].
  cbn [linear sample_head_state weight].
  apply Forall_forall. intros row Hrow.
  apply list_elem_of_In, repeat_spec in Hrow as ->.
  by rewrite repeat_length.
Qed.

Lemma sample_batch_rows : Forall (fun row => length row = 1280%nat) sample_batch.
Proof. constructor; [apply repeat_length | constructor]. Qed.

Lemma NIMA_head_distribution_witness :
  head sample_NIMA = [ReLU true; Dropout (3 # 4); Linear 1280 10; Softmax 1] /\
  (training sample_head_state = false ->
   layer_forward sample_head_state (Dropout (3 # 4)) sample_batch
   = Ok sample_batch) /\
  (exists out,
      Sequential_forward sample_head_state (head sample_NIMA) sample_batch
      = Ok out /\
      length out = length sample_batch /\
      Forall (fun row => length row = 10%nat /\
                         Forall (fun v => 0 <= v <= 1) row /\
                         np_sum row = 1) out) /\
  (forall x' out,
      Sequential_forward sample_head_state (head sample_NIMA) x' = Ok out ->
      Forall (fun row => length row = 10%nat /\
                         Forall (fun v => 0 <= v <= 1) row /\
                         np_sum row = 1) out).
Proof.
  apply (NIMA_head_distribution sample_offline unit (fun _ => Ok tt)
           (fun _ _ => true) false empty_world empty_world sample_NIMA
           sample_head_state sample_batch).
  - reflexivity.
  - apply sample_head_state_shape.
  - apply sample_batch_rows.
Defined.

End HeadWitness.

(** ** Weight provisioning *)

Section DownloadFacts.
Local Open Scope effect_scope.

Variable server : list string -> string -> result response.

Lemma write_chunks_appends (path : string) (chunks : list (list Byte.byte)) :
  forall (w : world) (content : list Byte.byte),
    fs w !! path = Some content ->
    write_chunks path chunks w
    = (Ok tt,
       {| fs := <[path := content ++ concat chunks]> (fs w);
          open_error := open_error w;
          requests_log := requests_log w;
          stdout := stdout w |}).
Proof.
  induction chunks as [|chunk rest IH]; intros [files refuse log out] content Hc;
    cbn [write_chunks concat fs requests_log stdout] in *.
  - unfold ret. rewrite app_nil_r, insert_id by exact Hc. reflexivity.
  - destruct chunk as [|b chunk].
    + unfold bind, ret at 1. cbn [app]. by apply IH.
    + unfold bind, file_write at 1.
      cbn [fs requests_log stdout]. rewrite Hc. cbn [default].
      erewrite IH by (cbn [fs]; apply lookup_insert_eq).
      cbn [fs requests_log stdout].
      by rewrite insert_insert_eq, <- app_assoc.
Qed.

(** [download_file] in closed form. *)
Lemma download_file_cases (url path : string) (chunk_size : Z) (w : world) :
  download_file server url path chunk_size w
  = if bool_decide (is_Some (fs w !! path)) then (Ok path, w)
    else match server (requests_log w) url with
         | Raise e =>
             (Raise e,
              {| fs := fs w;
                 open_error := open_error w;
                 requests_log := requests_log w ++ [url];
                 stdout := stdout w |})
         | Ok r =>
             match open_error w path with
             | Some e => (Raise e, refused url path w)
             | None =>
                 let '(chunks, failure) := iter_content r chunk_size in
                 (match failure with
                  | Some e => Raise e
                  | None => Ok path
                  end,
                  downloaded url path chunks w)
             end
         end.
Proof.
  unfold download_file, bind at 1, os_path_exists.
  destruct (bool_decide (is_Some (fs w !! path))); [reflexivity|].
  unfold bind at 1, requests_get.
  destruct (server (requests_log w) url) as [r|e]; [|reflexivity].
  unfold bind at 1, print2. unfold bind at 1, open_wb.
  cbn [fs open_error requests_log stdout].
  destruct (open_error w path) as [e|]; [reflexivity|].
  destruct (iter_content r chunk_size) as [chunks failure].
  unfold bind.
  erewrite write_chunks_appends by (cbn [fs]; apply lookup_insert_eq).
  cbn [fs open_error requests_log stdout app]. rewrite insert_insert_eq.
  unfold downloaded. by destruct failure.
Qed.

Lemma downloaded_exists (url path : string) (chunks : list (list Byte.byte))
    (w : world) :
  is_Some (fs (downloaded url path chunks w) !! path).
Proof. cbn. rewrite lookup_insert_eq. by eexists. Qed.

Lemma download_file_cached (url path : string) (chunk_size : Z) (w : world) :
  is_Some (fs w !! path) ->
  download_file server url path chunk_size w = (Ok path, w).
Proof.
  intros H. rewrite download_file_cases. by rewrite bool_decide_eq_true_2.
Qed.




End DownloadFacts.

Section DownloadClaims.
Local Open Scope effect_scope.

Variable server : list string -> string -> result response.

(** C7.  When [local_filename] exists, [download_file] returns
    [local_filename] and leaves the world as it was: no request reaches the
    transport layer, nothing is printed, and no file changes, whatever the
    existing content is.  Two calls in a row with that path therefore
    return the path twice, leave the world unchanged, and invoke the
    transport layer at most once (in fact not at all). *)
Theorem download_file_existing_path (url local_filename : string)
    (chunk_size : Z) (w : world) :
  is_Some (fs w !! local_filename) ->
  download_file server url local_filename chunk_size w
  = (Ok local_filename, w) /\
  (first <- download_file server url local_filename chunk_size ;;
   second <- download_file server url local_filename chunk_size ;;
   ret (first, second)) w
  = (Ok (local_filename, local_filename), w) /\
  forall r w',
    (download_file server url local_filename chunk_size ;;;
     download_file server url local_filename chunk_size) w = (r, w') ->
    fs w' = fs w /\
    requests_log w' = requests_log w /\
    (length (requests_log w') <= length (requests_log w) + 1)%nat.
Proof.
  intros Hex.
  pose proof (download_file_cached server url local_filename chunk_size w Hex)
    as Hcall.
  split; [exact Hcall|]. split.
  - unfold bind. rewrite Hcall, Hcall. reflexivity.
  - intros r w'. unfold bind. rewrite Hcall, Hcall. intros [= _ <-].
    repeat split. lia.
Qed.



End DownloadClaims.

Section DownloadWitnesses.
Local Open Scope effect_scope.

Lemma download_file_existing_path_witness :
  download_file sample_offline "http://host/w" "weights.pth" 1024
    sample_cached_world
  = (Ok "weights.pth"%string, sample_cached_world) /\
  (first <- download_file sample_offline "http://host/w" "weights.pth" 1024 ;;
   second <- download_file sample_offline "http://host/w" "weights.pth" 1024 ;;
   ret (first, second)) sample_cached_world
  = (Ok ("weights.pth"%string, "weights.pth"%string), sample_cached_world) /\
  forall r w',
    (download_file sample_offline "http://host/w" "weights.pth" 1024 ;;;
     download_file sample_offline "http://host/w" "weights.pth" 1024)
      sample_cached_world = (r, w') ->
    fs w' = fs sample_cached_world /\
    requests_log w' = requests_log sample_cached_world /\
    (length (requests_log w')
     <= length (requests_log sample_cached_world) + 1)%nat.
Proof.
  apply (download_file_existing_path sample_offline "http://host/w" "weights.pth" 1024
           sample_cached_world).
  cbn. rewrite lookup_singleton_eq. by eexists.
Defined.


End DownloadWitnesses.

(** ** The inference engine *)

Section EngineClaims.
Local Open Scope effect_scope.
Local Open Scope string_scope.

Variable server : list string -> string -> result response.
Variable state_dict : Type.
Variable unpickle : list Byte.byte -> result state_dict.
Variable accepts : list (list module) -> state_dict -> bool.
Variable available : TorchDevice.device -> bool.

Lemma weight_path_is_no_device :
  TorchDevice.torch_device "utils/nima/model/pretrain-model.pth"
  = Raise (RuntimeError
             "Invalid device string: utils/nima/model/pretrain-model.pth").
Proof. reflexivity. Qed.

(** The constructor stops at its first statement when the device string
    does not resolve: nothing is built or read, and the exception of
    [torch.device] reaches the caller. *)
Lemma InferenceModel_init_bad_device (device : string)
    (path_to_model : option string) (e : exn) (w : world) :
  TorchDevice.torch_device device = Raise e ->
  InferenceModel_init server state_dict unpickle accepts available
    device path_to_model w
  = (Raise e, w).
Proof.
  intros H. unfold InferenceModel_init, bind at 1, lift. by rewrite H.
Qed.

(** C8.  [create_model] calls the constructor with the weight-file path
    ['utils/nima/model/pretrain-model.pth'] as its first argument, the
    device identifier, and without a second argument, so that
    [path_to_model] takes its default.  The path is no device identifier:
    [torch.device] rejects it, and in every world [create_model] raises that
    error at device resolution, leaves the world untouched, and never
    returns an engine. *)
Theorem create_model_passes_path_as_device (w : world) :
  create_model server state_dict unpickle accepts available
  = InferenceModel_init server state_dict unpickle accepts available
      "utils/nima/model/pretrain-model.pth" None /\
  (forall device,
      InferenceModel_init server state_dict unpickle accepts available
        device None
      = InferenceModel_init server state_dict unpickle accepts available
          device (Some "utils/nima/model/pretrain-model.pth")) /\
  TorchDevice.torch_device "utils/nima/model/pretrain-model.pth"
  = Raise (RuntimeError
             "Invalid device string: utils/nima/model/pretrain-model.pth") /\
  create_model server state_dict unpickle accepts available w
  = (Raise (RuntimeError
              "Invalid device string: utils/nima/model/pretrain-model.pth"),
     w) /\
  (forall engine w',
      create_model server state_dict unpickle accepts available w
      <> (Ok engine, w')).
Proof.
  assert (Hcall :
    create_model server state_dict unpickle accepts available w
    = (Raise (RuntimeError
                "Invalid device string: utils/nima/model/pretrain-model.pth"),
       w)).
  { unfold create_model.
    apply InferenceModel_init_bad_device, weight_path_is_no_device. }
  split; [reflexivity|]. split; [reflexivity|].
  split; [apply weight_path_is_no_device|].
  split; [exact Hcall|].
  intros engine w'. rewrite Hcall. discriminate.
Qed.

End EngineClaims.

(** * Further properties *)

(** ** Statistics: array lengths, moments, extremes *)

Section StatisticsBeyond.
Local Open Scope R_scope.

(** X1.  The statistics accept an array of ten values, on which neither
    raises, and, by numpy's broadcasting, an array of one value; on every
    other length, the empty array included, both raise [ValueError].  On a
    single value [x] the mean score is [55 * x], and for non-negative [x]
    the standard deviation is the square root of
    [x * (385 - 6050 * x + 30250 * x ** 2)]. *)
Theorem statistics_reject_other_lengths (p q : ndarray) (x : R) :
  length p <> 10%nat ->
  length p <> 1%nat ->
  length q = 10%nat ->
  0 <= x ->
  get_mean_score p = Raise ValueError /\
  get_std_score p = Raise ValueError /\
  (forall e, get_mean_score q <> Raise e /\ get_std_score q <> Raise e) /\
  get_mean_score [x] = Ok (55 * x) /\
  get_std_score [x] = Ok (sqrt (x * (385 - 6050 * x + 30250 * x ^ 2))).
Proof.
  intros H10 H1 Hq Hx.
  assert (Hmean : get_mean_score p = Raise ValueError).
  { unfold get_mean_score. rewrite np_arange_buckets. unfold np_broadcast.
    rewrite decide_False by (cbn; congruence).
    destruct p as [|y [|z p]]; [reflexivity | by destruct H1 | reflexivity]. }
  assert (Hone : get_mean_score [x] = Ok (55 * x)).
  { unfold get_mean_score. rewrite np_arange_buckets. unfold np_broadcast.
    rewrite decide_False by (cbn; congruence).
    cbn. f_equal. lra. }
  split; [exact Hmean|]. split; [|split; [|split; [exact Hone|]]].
  - unfold get_std_score. by rewrite Hmean.
  - intros e.
    by rewrite (get_mean_score_weighted q Hq), (get_std_score_weighted q Hq).
  - unfold get_std_score. rewrite Hone. cbn [rbind].
    rewrite np_arange_buckets. unfold np_broadcast.
    rewrite decide_False by (cbn; congruence).
    cbn. do 2 f_equal. lra.
Qed.

Lemma statistics_reject_other_lengths_witness :
  get_mean_score [] = Raise ValueError /\
  get_std_score [] = Raise ValueError /\
  (forall e,
      get_mean_score uniform <> Raise e /\ get_std_score uniform <> Raise e) /\
  get_mean_score [1 / 10] = Ok (55 * (1 / 10)) /\
  get_std_score [1 / 10]
  = Ok (sqrt (1 / 10 * (385 - 6050 * (1 / 10) + 30250 * (1 / 10) ^ 2))).
Proof.
  apply (statistics_reject_other_lengths [] uniform (1 / 10));
    [discriminate | discriminate | reflexivity | lra].
Defined.

Lemma second_moment_unfold (p : ndarray) :
  second_moment p =
    1 * nth 0 p 0 + 4 * nth 1 p 0 + 9 * nth 2 p 0 + 16 * nth 3 p 0
    + 25 * nth 4 p 0 + 36 * nth 5 p 0 + 49 * nth 6 p 0 + 64 * nth 7 p 0
    + 81 * nth 8 p 0 + 100 * nth 9 p 0.
Proof. unfold second_moment, sum_buckets, bucket. cbn. lra. Qed.

Lemma weighted_variance_unfold (m : R) (p : ndarray) :
  weighted_variance m p =
    (1 - m) ^ 2 * nth 0 p 0 + (2 - m) ^ 2 * nth 1 p 0
    + (3 - m) ^ 2 * nth 2 p 0 + (4 - m) ^ 2 * nth 3 p 0
    + (5 - m) ^ 2 * nth 4 p 0 + (6 - m) ^ 2 * nth 5 p 0
    + (7 - m) ^ 2 * nth 6 p 0 + (8 - m) ^ 2 * nth 7 p 0
    + (9 - m) ^ 2 * nth 8 p 0 + (10 - m) ^ 2 * nth 9 p 0.
Proof. unfold weighted_variance, sum_buckets, bucket. cbn. lra. Qed.

Lemma np_sum_ten (p1 p2 p3 p4 p5 p6 p7 p8 p9 p10 : R) :
  np_sum [p1; p2; p3; p4; p5; p6; p7; p8; p9; p10]
  = p1 + p2 + p3 + p4 + p5 + p6 + p7 + p8 + p9 + p10.
Proof. cbn. lra. Qed.

(** The radicand is the second moment minus the squared mean. *)
Lemma weighted_variance_moments (p : ndarray) :
  length p = 10%nat ->
  np_sum p = 1 ->
  weighted_variance (weighted_mean p) p
  = second_moment p - weighted_mean p ^ 2.
Proof.
  intros Hlen Hsum.
  destruct (ten_elements p Hlen) as (p1&p2&p3&p4&p5&p6&p7&p8&p9&p10&->).
  rewrite np_sum_ten in Hsum.
  pose proof (weighted_mean_unfold [p1; p2; p3; p4; p5; p6; p7; p8; p9; p10])
    as Hm.
  rewrite weighted_variance_unfold, second_moment_unfold.
  cbn [nth] in *.
  set (m := weighted_mean _) in *. clearbody m.
  replace p10 with (1 - p1 - p2 - p3 - p4 - p5 - p6 - p7 - p8 - p9) in *
    by lra.
  rewrite Hm. ring.
Qed.

(** X2.  For every ScoreDistribution the second moment is at least the
    squared mean, and the standard deviation is the square root of their
    difference: [std² = Σ_i i² · p[i] − mean²]. *)
Theorem get_std_score_moments (p : ndarray) :
  ScoreDistribution p ->
  0 <= second_moment p - weighted_mean p ^ 2 /\
  get_std_score p = Ok (sqrt (second_moment p - weighted_mean p ^ 2)) /\
  get_mean_score p = Ok (weighted_mean p).
Proof.
  intros Hp. pose proof Hp as (Hlen & _ & Hsum).
  rewrite <- (weighted_variance_moments p Hlen Hsum).
  split; [by apply weighted_variance_nonneg|].
  split; [by apply get_std_score_weighted | by apply get_mean_score_weighted].
Qed.

Lemma get_std_score_moments_witness :
  0 <= second_moment uniform - weighted_mean uniform ^ 2 /\
  get_std_score uniform
  = Ok (sqrt (second_moment uniform - weighted_mean uniform ^ 2)) /\
  get_mean_score uniform = Ok (weighted_mean uniform).
Proof.
  apply (get_std_score_moments uniform).
  split; [reflexivity|]. split; [|cbn; lra].
  unfold uniform. cbn [repeat]. repeat (constructor; [lra|]). constructor.
Defined.

End StatisticsBeyond.

Section StatisticsExtremes.
Local Open Scope R_scope.

Lemma second_moment_bound (p : ndarray) :
  ScoreDistribution p -> second_moment p <= 11 * weighted_mean p - 10.
Proof.
  intros (Hlen & Hpos & Hsum).
  destruct (ten_elements p Hlen) as (p1&p2&p3&p4&p5&p6&p7&p8&p9&p10&->).
  rewrite np_sum_ten in Hsum.
  rewrite second_moment_unfold, weighted_mean_unfold.
  repeat (apply Forall_cons_1 in Hpos as [? Hpos]).
  cbn [nth]. lra.
Qed.

(** X3.  For every ScoreDistribution the variance is at most
    [(mean − 1) · (10 − mean)], and the standard deviation that
    [get_std_score] returns is at most 4.5, half the width of the bucket
    range. *)
Theorem get_std_score_at_most_half_range (p : ndarray) :
  ScoreDistribution p ->
  exists std,
    get_std_score p = Ok std /\
    std ^ 2 <= (weighted_mean p - 1) * (10 - weighted_mean p) /\
    std <= 9 / 2.
Proof.
  intros Hp. pose proof Hp as (Hlen & _ & Hsum).
  pose proof (weighted_variance_nonneg (weighted_mean p) p Hp) as Hnn.
  pose proof (second_moment_bound p Hp) as Hbound.
  pose proof (weighted_variance_moments p Hlen Hsum) as Hvar.
  set (v := weighted_variance (weighted_mean p) p) in *.
  set (m := weighted_mean p) in *.
  exists (sqrt v). split; [by apply get_std_score_weighted|].
  assert (Hv : v <= (m - 1) * (10 - m)) by nra.
  split.
  - replace (sqrt v ^ 2) with (sqrt v * sqrt v) by ring.
    by rewrite sqrt_sqrt.
  - rewrite <- (sqrt_square (9 / 2)) by lra.
    apply sqrt_le_1_alt.
    pose proof (pow2_ge_0 (m - 11 / 2)). nra.
Qed.

Lemma get_std_score_at_most_half_range_witness :
  exists std,
    get_std_score uniform = Ok std /\
    std ^ 2 <= (weighted_mean uniform - 1) * (10 - weighted_mean uniform) /\
    std <= 9 / 2.
Proof.
  apply (get_std_score_at_most_half_range uniform).
  apply uniform_ScoreDistribution.
Defined.

Lemma square_term_zero (c m q : R) : (c - m) ^ 2 * q = 0 -> q = 0 \/ m = c.
Proof.
  intros H. apply Rmult_integral in H as [H | H]; [right | by left].
  assert (c - m = 0) by nra. lra.
Qed.

(** Ten non-negative weights of total one whose weighted squared deviation
    from [m] vanishes sit on a single bucket. *)
Lemma zero_variance_delta (m p1 p2 p3 p4 p5 p6 p7 p8 p9 p10 : R) :
  0 <= p1 -> 0 <= p2 -> 0 <= p3 -> 0 <= p4 -> 0 <= p5 ->
  0 <= p6 -> 0 <= p7 -> 0 <= p8 -> 0 <= p9 -> 0 <= p10 ->
  p1 + p2 + p3 + p4 + p5 + p6 + p7 + p8 + p9 + p10 = 1 ->
  (1 - m) ^ 2 * p1 + (2 - m) ^ 2 * p2 + (3 - m) ^ 2 * p3
  + (4 - m) ^ 2 * p4 + (5 - m) ^ 2 * p5 + (6 - m) ^ 2 * p6
  + (7 - m) ^ 2 * p7 + (8 - m) ^ 2 * p8 + (9 - m) ^ 2 * p9
  + (10 - m) ^ 2 * p10 = 0 ->
  exists k, (1 <= k <= 10)%nat /\
            [p1; p2; p3; p4; p5; p6; p7; p8; p9; p10] = delta k.
Proof.
  intros H1 H2 H3 H4 H5 H6 H7 H8 H9 H10 Hsum Hvar.
  assert (T1 : 0 <= (1 - m) ^ 2 * p1)
    by (apply Rmult_le_pos; [apply pow2_ge_0 | assumption]).
  assert (T2 : 0 <= (2 - m) ^ 2 * p2)
    by (apply Rmult_le_pos; [apply pow2_ge_0 | assumption]).
  assert (T3 : 0 <= (3 - m) ^ 2 * p3)
    by (apply Rmult_le_pos; [apply pow2_ge_0 | assumption]).
  assert (T4 : 0 <= (4 - m) ^ 2 * p4)
    by (apply Rmult_le_pos; [apply pow2_ge_0 | assumption]).
  assert (T5 : 0 <= (5 - m) ^ 2 * p5)
    by (apply Rmult_le_pos; [apply pow2_ge_0 | assumption]).
  assert (T6 : 0 <= (6 - m) ^ 2 * p6)
    by (apply Rmult_le_pos; [apply pow2_ge_0 | assumption]).
  assert (T7 : 0 <= (7 - m) ^ 2 * p7)
    by (apply Rmult_le_pos; [apply pow2_ge_0 | assumption]).
  assert (T8 : 0 <= (8 - m) ^ 2 * p8)
    by (apply Rmult_le_pos; [apply pow2_ge_0 | assumption]).
  assert (T9 : 0 <= (9 - m) ^ 2 * p9)
    by (apply Rmult_le_pos; [apply pow2_ge_0 | assumption]).
  assert (T10 : 0 <= (10 - m) ^ 2 * p10)
    by (apply Rmult_le_pos; [apply pow2_ge_0 | assumption]).
  assert (Z1 : (1 - m) ^ 2 * p1 = 0) by lra.
  assert (Z2 : (2 - m) ^ 2 * p2 = 0) by lra.
  assert (Z3 : (3 - m) ^ 2 * p3 = 0) by lra.
  assert (Z4 : (4 - m) ^ 2 * p4 = 0) by lra.
  assert (Z5 : (5 - m) ^ 2 * p5 = 0) by lra.
  assert (Z6 : (6 - m) ^ 2 * p6 = 0) by lra.
  assert (Z7 : (7 - m) ^ 2 * p7 = 0) by lra.
  assert (Z8 : (8 - m) ^ 2 * p8 = 0) by lra.
  assert (Z9 : (9 - m) ^ 2 * p9 = 0) by lra.
  assert (Z10 : (10 - m) ^ 2 * p10 = 0) by lra.
  clear T1 T2 T3 T4 T5 T6 T7 T8 T9 T10 Hvar.
  assert (Hm : m = 1 \/ m = 2 \/ m = 3 \/ m = 4 \/ m = 5 \/
               m = 6 \/ m = 7 \/ m = 8 \/ m = 9 \/ m = 10).
  { destruct (square_term_zero _ _ _ Z1) as [E1|E1]; [|tauto].
    destruct (square_term_zero _ _ _ Z2) as [E2|E2]; [|tauto].
    destruct (square_term_zero _ _ _ Z3) as [E3|E3]; [|tauto].
    destruct (square_term_zero _ _ _ Z4) as [E4|E4]; [|tauto].
    destruct (square_term_zero _ _ _ Z5) as [E5|E5]; [|tauto].
    destruct (square_term_zero _ _ _ Z6) as [E6|E6]; [|tauto].
    destruct (square_term_zero _ _ _ Z7) as [E7|E7]; [|tauto].
    destruct (square_term_zero _ _ _ Z8) as [E8|E8]; [|tauto].
    destruct (square_term_zero _ _ _ Z9) as [E9|E9]; [|tauto].
    destruct (square_term_zero _ _ _ Z10) as [E10|E10]; [|tauto].
    lra. }
  assert (Hothers :
    forall c q, (c - m) ^ 2 * q = 0 -> m <> c -> q = 0).
  { intros c q Hz Hne. by destruct (square_term_zero _ _ _ Hz). }
  destruct Hm as [E|[E|[E|[E|[E|[E|[E|[E|[E|E]]]]]]]]].
  - exists 1%nat. split; [lia|].
    rewrite (Hothers _ _ Z2), (Hothers _ _ Z3), (Hothers _ _ Z4),
      (Hothers _ _ Z5), (Hothers _ _ Z6), (Hothers _ _ Z7),
      (Hothers _ _ Z8), (Hothers _ _ Z9), (Hothers _ _ Z10) in * by lra.
    cbn. repeat f_equal. lra.
  - exists 2%nat. split; [lia|].
    rewrite (Hothers _ _ Z1), (Hothers _ _ Z3), (Hothers _ _ Z4),
      (Hothers _ _ Z5), (Hothers _ _ Z6), (Hothers _ _ Z7),
      (Hothers _ _ Z8), (Hothers _ _ Z9), (Hothers _ _ Z10) in * by lra.
    cbn. repeat f_equal. lra.
  - exists 3%nat. split; [lia|].
    rewrite (Hothers _ _ Z1), (Hothers _ _ Z2), (Hothers _ _ Z4),
      (Hothers _ _ Z5), (Hothers _ _ Z6), (Hothers _ _ Z7),
      (Hothers _ _ Z8), (Hothers _ _ Z9), (Hothers _ _ Z10) in * by lra.
    cbn. repeat f_equal. lra.
  - exists 4%nat. split; [lia|].
    rewrite (Hothers _ _ Z1), (Hothers _ _ Z2), (Hothers _ _ Z3),
      (Hothers _ _ Z5), (Hothers _ _ Z6), (Hothers _ _ Z7),
      (Hothers _ _ Z8), (Hothers _ _ Z9), (Hothers _ _ Z10) in * by lra.
    cbn. repeat f_equal. lra.
  - exists 5%nat. split; [lia|].
    rewrite (Hothers _ _ Z1), (Hothers _ _ Z2), (Hothers _ _ Z3),
      (Hothers _ _ Z4), (Hothers _ _ Z6), (Hothers _ _ Z7),
      (Hothers _ _ Z8), (Hothers _ _ Z9), (Hothers _ _ Z10) in * by lra.
    cbn. repeat f_equal. lra.
  - exists 6%nat. split; [lia|].
    rewrite (Hothers _ _ Z1), (Hothers _ _ Z2), (Hothers _ _ Z3),
      (Hothers _ _ Z4), (Hothers _ _ Z5), (Hothers _ _ Z7),
      (Hothers _ _ Z8), (Hothers _ _ Z9), (Hothers _ _ Z10) in * by lra.
    cbn. repeat f_equal. lra.
  - exists 7%nat. split; [lia|].
    rewrite (Hothers _ _ Z1), (Hothers _ _ Z2), (Hothers _ _ Z3),
      (Hothers _ _ Z4), (Hothers _ _ Z5), (Hothers _ _ Z6),
      (Hothers _ _ Z8), (Hothers _ _ Z9), (Hothers _ _ Z10) in * by lra.
    cbn. repeat f_equal. lra.
  - exists 8%nat. split; [lia|].
    rewrite (Hothers _ _ Z1), (Hothers _ _ Z2), (Hothers _ _ Z3),
      (Hothers _ _ Z4), (Hothers _ _ Z5), (Hothers _ _ Z6),
      (Hothers _ _ Z7), (Hothers _ _ Z9), (Hothers _ _ Z10) in * by lra.
    cbn. repeat f_equal. lra.
  - exists 9%nat. split; [lia|].
    rewrite (Hothers _ _ Z1), (Hothers _ _ Z2), (Hothers _ _ Z3),
      (Hothers _ _ Z4), (Hothers _ _ Z5), (Hothers _ _ Z6),
      (Hothers _ _ Z7), (Hothers _ _ Z8), (Hothers _ _ Z10) in * by lra.
    cbn. repeat f_equal. lra.
  - exists 10%nat. split; [lia|].
    rewrite (Hothers _ _ Z1), (Hothers _ _ Z2), (Hothers _ _ Z3),
      (Hothers _ _ Z4), (Hothers _ _ Z5), (Hothers _ _ Z6),
      (Hothers _ _ Z7), (Hothers _ _ Z8), (Hothers _ _ Z9) in * by lra.
    cbn. repeat f_equal. lra.
Qed.

(** X4.  A ScoreDistribution on which [get_std_score] returns 0 is a delta
    distribution: all its mass is on one bucket [k], and its mean score is
    [k]. *)
Theorem get_std_score_zero_is_delta (p : ndarray) :
  ScoreDistribution p ->
  get_std_score p = Ok 0 ->
  exists k, (1 <= k <= 10)%nat /\ p = delta k /\
            get_mean_score p = Ok (INR k).
Proof.
  intros Hp Hstd. pose proof Hp as (Hlen & Hpos & Hsum).
  rewrite (get_std_score_weighted p Hlen) in Hstd.
  injection Hstd as Hstd.
  apply sqrt_eq_0 in Hstd; [|by apply weighted_variance_nonneg].
  rewrite weighted_variance_unfold in Hstd.
  destruct (ten_elements p Hlen) as (p1&p2&p3&p4&p5&p6&p7&p8&p9&p10&->).
  rewrite np_sum_ten in Hsum.
  repeat (apply Forall_cons_1 in Hpos as [? Hpos]).
  cbn [nth] in Hstd.
  set (m := weighted_mean _) in Hstd.
  destruct (zero_variance_delta m p1 p2 p3 p4 p5 p6 p7 p8 p9 p10)
    as (k & Hk & Heq); try assumption.
  clear Hstd m. rewrite Heq.
  exists k. split; [exact Hk|]. split; [reflexivity|].
  rewrite (get_mean_score_weighted _ (delta_length k)).
  f_equal. by apply weighted_mean_delta.
Qed.

Lemma delta_ScoreDistribution (k : nat) :
  (1 <= k <= 10)%nat -> ScoreDistribution (delta k).
Proof.
  intros Hk.
  destruct (bucket_range k Hk) as [->|[->|[->|[->|[->|[->|[->|[->|[->| ->]]]]]]]]];
    (split; [reflexivity | split;
       [cbn; repeat (constructor; [lra|]); constructor | cbn; lra]]).
Qed.

Lemma get_std_score_delta_zero (k : nat) :
  (1 <= k <= 10)%nat -> get_std_score (delta k) = Ok 0.
Proof.
  intros Hk. rewrite (get_std_score_weighted _ (delta_length k)).
  rewrite (weighted_mean_delta k Hk), (weighted_variance_delta k Hk).
  by rewrite sqrt_0.
Qed.

Lemma get_std_score_zero_is_delta_witness :
  exists k, (1 <= k <= 10)%nat /\ delta 6 = delta k /\
            get_mean_score (delta 6) = Ok (INR k).
Proof.
  apply (get_std_score_zero_is_delta (delta 6)).
  - apply delta_ScoreDistribution. lia.
  - apply get_std_score_delta_zero. lia.
Defined.

(** X5.  Reversing the order of the buckets of ten values that sum to one
    mirrors the mean score to [11 − mean] and leaves the standard deviation
    unchanged. *)
Theorem statistics_of_reversed (p : ndarray) :
  length p = 10%nat ->
  np_sum p = 1 ->
  get_mean_score (rev p) = Ok (11 - weighted_mean p) /\
  get_mean_score p = Ok (weighted_mean p) /\
  get_std_score (rev p) = get_std_score p.
Proof.
  intros Hlen Hsum.
  assert (Hrev : length (rev p) = 10%nat) by (by rewrite length_rev).
  assert (Hmean : weighted_mean (rev p) = 11 - weighted_mean p).
  { destruct (ten_elements p Hlen) as (p1&p2&p3&p4&p5&p6&p7&p8&p9&p10&->).
    rewrite np_sum_ten in Hsum. rewrite !weighted_mean_unfold.
    cbn. lra. }
  split; [|split].
  - rewrite (get_mean_score_weighted _ Hrev). by rewrite Hmean.
  - by apply get_mean_score_weighted.
  - rewrite (get_std_score_weighted _ Hrev), (get_std_score_weighted _ Hlen).
    rewrite Hmean. do 2 f_equal.
    generalize (weighted_mean p). intros m.
    destruct (ten_elements p Hlen) as (p1&p2&p3&p4&p5&p6&p7&p8&p9&p10&->).
    rewrite !weighted_variance_unfold. cbn [rev app nth]. ring.
Qed.

Lemma statistics_of_reversed_witness :
  get_mean_score (rev (delta 2)) = Ok (11 - weighted_mean (delta 2)) /\
  get_mean_score (delta 2) = Ok (weighted_mean (delta 2)) /\
  get_std_score (rev (delta 2)) = get_std_score (delta 2).
Proof.
  apply (statistics_of_reversed (delta 2)); [reflexivity | cbn; lra].
Defined.

End StatisticsExtremes.

(** ** Shapes through the feature extractor *)

Section ShapeFacts.
Local Open Scope Z_scope.

Variable training : bool.

Lemma conv_out_pointwise (h : Z) : conv_out h 1 1 0 = h.
Proof. unfold conv_out. rewrite Z.div_1_r. lia. Qed.

Lemma conv_out_same (h : Z) : conv_out h 3 1 1 = h.
Proof. unfold conv_out. rewrite Z.div_1_r. lia. Qed.

Lemma conv_out_halves (h : Z) : conv_out (2 * h) 3 2 1 = h.
Proof. unfold conv_out. Z.to_euclidean_division_equations. lia. Qed.

(** A 3×3 window with padding 1 at stride 1 or 2 never empties a map and
    never enlarges it. *)
Lemma conv_out_block_bounds (h s : Z) :
  1 <= h -> s = 1 \/ s = 2 -> 1 <= conv_out h 3 s 1 <= h.
Proof.
  intros Hh [-> | ->]; unfold conv_out;
    Z.to_euclidean_division_equations; lia.
Qed.

Lemma single_value (n h w : Z) :
  1 <= h -> 1 <= w -> n * h * w = 1 -> n = 1 /\ h = 1 /\ w = 1.
Proof.
  intros Hh Hw Hp.
  assert (1 <= n) as Hn by nia.
  assert (h = 1) as -> by nia.
  assert (w = 1) as -> by nia.
  lia.
Qed.

(** Batch normalisation that accepts a map accepts every larger one. *)
Lemma bn_accepts_mono (n hf wf h w : Z) :
  1 <= hf <= h -> 1 <= wf <= w ->
  bn_accepts training n hf wf -> bn_accepts training n h w.
Proof.
  intros Hh Hw [Hev | Hne]; [by left|]. right. intros Hp.
  apply single_value in Hp as (-> & -> & ->); [|lia..].
  apply Hne. replace hf with 1 by lia. replace wf with 1 by lia. lia.
Qed.

Lemma conv_shape (cin cout k s p g : Z) (bias : bool) (n h w : Z) :
  1 <= s -> 1 <= h -> 1 <= w -> k <= h + 2 * p -> k <= w + 2 * p ->
  layer_shape training (Conv2d cin cout k s p g bias) (n, cin, h, w)
  = Some (n, cout, conv_out h k s p, conv_out w k s p).
Proof.
  intros Hs Hh Hw Hkh Hkw. cbn [layer_shape]. unfold window_fits.
  rewrite Z.eqb_refl.
  by rewrite !(proj2 (Z.leb_le _ _)) by assumption.
Qed.

Lemma bn_shape (c n h w : Z) :
  bn_accepts training n h w ->
  layer_shape training (BatchNorm2d c) (n, c, h, w) = Some (n, c, h, w).
Proof.
  intros Hbn. cbn [layer_shape]. rewrite Z.eqb_refl.
  destruct Hbn as [-> | Hne]; [done|].
  apply Z.eqb_neq in Hne. by rewrite Hne, andb_false_r.
Qed.

Lemma relu6_shape (inplace : bool) (sh : shape4) :
  layer_shape training (ReLU6 inplace) sh = Some sh.
Proof. by destruct sh as [[[n c] h] w]. Qed.

Lemma bn_single (c n h w : Z) :
  n * h * w = 1 -> layer_shape true (BatchNorm2d c) (n, c, h, w) = None.
Proof.
  intros Hp. cbn [layer_shape]. apply Z.eqb_eq in Hp.
  by rewrite Hp, Z.eqb_refl.
Qed.

Lemma modules_shape_app (a b : list module) (sh : shape4) :
  modules_shape training (a ++ b) sh
  = match modules_shape training a sh with
    | Some sh' => modules_shape training b sh'
    | None => None
    end.
Proof.
  revert sh. induction a as [|m a IH]; intros sh; cbn; [done|].
  destruct (module_shape training m sh); [apply IH | done].
Qed.

(** The projection path of a block fed with the channel count it was built
    for. *)
Lemma built_block_path_shape (inp oup s t : Z) (n h w : Z) :
  s = 1 \/ s = 2 -> 1 <= h -> 1 <= w ->
  bn_accepts training n (conv_out h 3 s 1) (conv_out w 3 s 1) ->
  layers_shape training (ir_conv (built_block (inp, oup, s, t))) (n, inp, h, w)
  = Some (n, oup, conv_out h 3 s 1, conv_out w 3 s 1).
Proof.
  intros Hs Hh Hw Hbn.
  pose proof (conv_out_block_bounds h s Hh Hs) as Hh'.
  pose proof (conv_out_block_bounds w s Hw Hs) as Hw'.
  pose proof (bn_accepts_mono _ _ _ _ _ Hh' Hw' Hbn) as Hbn0.
  cbn [built_block ir_conv layers_shape].
  rewrite conv_shape, !conv_out_pointwise by lia.
  cbn [layers_shape]. rewrite bn_shape by exact Hbn0.
  cbn [layers_shape]. rewrite relu6_shape.
  rewrite conv_shape by lia.
  cbn [layers_shape]. rewrite bn_shape by exact Hbn.
  cbn [layers_shape]. rewrite relu6_shape.
  rewrite conv_shape, !conv_out_pointwise by lia.
  cbn [layers_shape]. by rewrite bn_shape by exact Hbn.
Qed.

(** A block fed with the channel count it was built for. *)
Lemma built_block_shape (inp oup s t : Z) (n h w : Z) :
  s = 1 \/ s = 2 -> 1 <= h -> 1 <= w ->
  bn_accepts training n (conv_out h 3 s 1) (conv_out w 3 s 1) ->
  module_shape training (Block (built_block (inp, oup, s, t))) (n, inp, h, w)
  = Some (n, oup, conv_out h 3 s 1, conv_out w 3 s 1).
Proof.
  intros Hs Hh Hw Hbn. cbn [module_shape].
  rewrite built_block_path_shape by assumption.
  cbn [built_block use_res_connect].
  destruct (Z.eqb_spec s 1) as [-> | Hs1]; cbn [andb]; [|reflexivity].
  destruct (Z.eqb_spec inp oup) as [-> | Hc]; [|reflexivity].
  rewrite !conv_out_same. by rewrite decide_True.
Qed.

Lemma repeated_blocks_shape (c t : Z) (k : nat) (n h w : Z) :
  1 <= h -> 1 <= w -> bn_accepts training n h w ->
  modules_shape training
                (map (fun a => Block (built_block a)) (repeat (c, c, 1, t) k))
                (n, c, h, w)
  = Some (n, c, h, w).
Proof.
  intros Hh Hw Hbn.
  induction k as [|k IH]; [done|]. cbn [repeat map modules_shape].
  rewrite built_block_shape; rewrite ?conv_out_same;
    [exact IH | by left | assumption..].
Qed.

Lemma stage_spatial_bounds (h : Z) (row : Z * Z * Z * Z) :
  1 <= h -> stride_ok row -> 1 <= stage_spatial h row <= h.
Proof.
  destruct row as [[[t c] cnt] s]. intros Hh Hs. unfold stage_spatial.
  destruct (0 <? cnt); [by apply conv_out_block_bounds | lia].
Qed.

Lemma table_spatial_bounds (rows : list (Z * Z * Z * Z)) :
  Forall stride_ok rows ->
  forall h, 1 <= h -> 1 <= table_spatial rows h <= h.
Proof.
  induction 1 as [|row rows Hrow _ IH]; intros h Hh; [cbn; lia|].
  unfold table_spatial in *. cbn [foldl].
  pose proof (stage_spatial_bounds h row Hh Hrow) as Hs.
  specialize (IH (stage_spatial h row) ltac:(lia)). lia.
Qed.

Lemma stage_blocks_shape (ic : Z) (row : Z * Z * Z * Z) (n h w : Z) :
  stride_ok row -> 1 <= h -> 1 <= w ->
  bn_accepts training n (stage_spatial h row) (stage_spatial w row) ->
  modules_shape training
                (map (fun a => Block (built_block a)) (stage_blocks ic row))
                (n, ic, h, w)
  = Some (n, stage_output ic row, stage_spatial h row, stage_spatial w row).
Proof.
  destruct row as [[[t c] cnt] s]. intros Hs Hh Hw.
  unfold stage_blocks, stage_output, stage_spatial.
  destruct (Z.to_nat cnt) as [|k] eqn:Hn.
  - replace (0 <? cnt) with false by (symmetry; apply Z.ltb_ge; lia). done.
  - replace (0 <? cnt) with true by (symmetry; apply Z.ltb_lt; lia).
    intros Hbn. cbn [map modules_shape].
    rewrite built_block_shape by assumption.
    apply repeated_blocks_shape; [by apply conv_out_block_bounds..|exact Hbn].
Qed.

Lemma table_blocks_shape (rows : list (Z * Z * Z * Z)) :
  Forall stride_ok rows ->
  forall ic n h w,
    1 <= h -> 1 <= w ->
    bn_accepts training n (table_spatial rows h) (table_spatial rows w) ->
    modules_shape training
                  (map (fun a => Block (built_block a)) (table_blocks ic rows))
                  (n, ic, h, w)
    = Some (n, table_output ic rows, table_spatial rows h,
            table_spatial rows w).
Proof.
  induction 1 as [|row rows Hrow Hrows IH]; intros ic n h w Hh Hw Hbn; [done|].
  cbn [table_blocks table_output]. rewrite map_app, modules_shape_app.
  pose proof (stage_spatial_bounds h row Hh Hrow) as Hh1.
  pose proof (stage_spatial_bounds w row Hw Hrow) as Hw1.
  change (table_spatial (row :: rows) h)
    with (table_spatial rows (stage_spatial h row)) in *.
  change (table_spatial (row :: rows) w)
    with (table_spatial rows (stage_spatial w row)) in *.
  rewrite stage_blocks_shape; [apply IH; [lia..|exact Hbn] | assumption..|].
  eapply bn_accepts_mono; [| |exact Hbn];
    apply table_spatial_bounds; (assumption || lia).
Qed.

Lemma table_spatial_scaled (width_mult : Q) (rows : list (Z * Z * Z * Z))
    (h : Z) :
  table_spatial (map (scale_row width_mult) rows) h = table_spatial rows h.
Proof.
  unfold table_spatial. revert h.
  induction rows as [|[[[t c] cnt] s] rows IH]; intros h; [done|].
  cbn [map foldl]. apply IH.
Qed.

(** The stages of the table divide the spatial size by sixteen. *)
Lemma table_spatial_default (k : Z) :
  table_spatial default_setting (16 * k) = k.
Proof.
  unfold table_spatial, default_setting.
  cbn [foldl stage_spatial Z.ltb Z.compare].
  rewrite (conv_out_same (16 * k)).
  replace (16 * k) with (2 * (8 * k)) by lia. rewrite (conv_out_halves (8 * k)).
  replace (8 * k) with (2 * (4 * k)) by lia. rewrite (conv_out_halves (4 * k)).
  replace (4 * k) with (2 * (2 * k)) by lia. rewrite (conv_out_halves (2 * k)).
  rewrite (conv_out_same (2 * k)), (conv_out_halves k).
  apply conv_out_same.
Qed.

Lemma conv_bn_shape (inp oup s : Z) (n h w : Z) :
  s = 1 \/ s = 2 -> 1 <= h -> 1 <= w ->
  bn_accepts training n (conv_out h 3 s 1) (conv_out w 3 s 1) ->
  layers_shape training (conv_bn inp oup s) (n, inp, h, w)
  = Some (n, oup, conv_out h 3 s 1, conv_out w 3 s 1).
Proof.
  intros Hs Hh Hw Hbn. unfold conv_bn. cbn [layers_shape].
  rewrite conv_shape by lia.
  cbn [layers_shape]. by rewrite bn_shape by exact Hbn.
Qed.

Lemma conv_1x1_bn_shape (inp oup : Z) (n h w : Z) :
  1 <= h -> 1 <= w -> bn_accepts training n h w ->
  layers_shape training (conv_1x1_bn inp oup) (n, inp, h, w)
  = Some (n, oup, h, w).
Proof.
  intros Hh Hw Hbn. unfold conv_1x1_bn. cbn [layers_shape].
  rewrite conv_shape, !conv_out_pointwise by lia.
  cbn [layers_shape]. by rewrite bn_shape by exact Hbn.
Qed.

Lemma pool_all (k : Z) : conv_out k k k 0 = 1.
Proof.
  unfold conv_out. replace (k + 2 * 0 - k) with 0 by lia.
  by rewrite Zdiv_0_l.
Qed.

Lemma built_network_shape (n_class k n : Z) (width_mult : Q) :
  1 <= k -> bn_accepts training n k k ->
  modules_shape training
                (features (built_network n_class (32 * k) width_mult))
                (n, 3, 32 * k, 32 * k)
  = Some (n, last_channel (built_network n_class (32 * k) width_mult), 1, 1).
Proof.
  intros Hk Hbn.
  assert (bn_accepts training n (16 * k) (16 * k)) as Hbn16
    by (apply (bn_accepts_mono n k k); [lia | lia | exact Hbn]).
  unfold built_network. cbn [features last_channel].
  rewrite !modules_shape_app.
  cbn [modules_shape module_shape].
  replace (32 * k) with (2 * (16 * k)) at 1 2 by lia.
  rewrite conv_bn_shape; rewrite ?(conv_out_halves (16 * k));
    [|by right | lia | lia | exact Hbn16].
  rewrite table_blocks_shape;
    rewrite ?table_spatial_scaled, ?table_spatial_default;
    [|apply scale_row_strides, default_setting_strides | lia | lia
     |exact Hbn].
  cbn [app modules_shape module_shape].
  rewrite conv_1x1_bn_shape by (lia || exact Hbn). cbn [layer_shape].
  rewrite Z.mul_comm, Z.div_mul by lia.
  rewrite !(proj2 (Z.leb_le _ _)) by lia. cbn [andb].
  by rewrite pool_all.
Qed.

End ShapeFacts.

Section TrainingRejections.
Local Open Scope Z_scope.

(** In training mode a block whose depthwise convolution leaves a single
    value per channel is rejected by a batch normalisation. *)
Lemma built_block_path_single (inp oup s t : Z) (n h w : Z) :
  s = 1 \/ s = 2 -> 1 <= h -> 1 <= w ->
  n * conv_out h 3 s 1 * conv_out w 3 s 1 = 1 ->
  layers_shape true (ir_conv (built_block (inp, oup, s, t))) (n, inp, h, w)
  = None.
Proof.
  intros Hs Hh Hw Hp.
  cbn [built_block ir_conv layers_shape].
  rewrite conv_shape, !conv_out_pointwise by lia.
  cbn [layers_shape].
  destruct (Z.eq_dec (n * h * w) 1) as [H1 | H1].
  - by rewrite bn_single.
  - rewrite bn_shape by (by right). cbn [layers_shape]. rewrite relu6_shape.
    rewrite conv_shape by lia. cbn [layers_shape]. by rewrite bn_single.
Qed.

Lemma built_block_single (inp oup s t : Z) (n h w : Z) :
  s = 1 \/ s = 2 -> 1 <= h -> 1 <= w ->
  n * conv_out h 3 s 1 * conv_out w 3 s 1 = 1 ->
  module_shape true (Block (built_block (inp, oup, s, t))) (n, inp, h, w)
  = None.
Proof.
  intros Hs Hh Hw Hp. cbn [module_shape].
  by rewrite built_block_path_single.
Qed.

Lemma stage_blocks_single (ic : Z) (row : Z * Z * Z * Z) (n h w : Z) :
  stride_ok row -> 1 <= h -> 1 <= w ->
  n * stage_spatial h row * stage_spatial w row = 1 ->
  n * h * w <> 1 ->
  modules_shape true
                (map (fun a => Block (built_block a)) (stage_blocks ic row))
                (n, ic, h, w)
  = None.
Proof.
  destruct row as [[[t c] cnt] s]. intros Hs Hh Hw.
  unfold stage_blocks, stage_spatial.
  destruct (Z.to_nat cnt) as [|k] eqn:Hn.
  - replace (0 <? cnt) with false by (symmetry; apply Z.ltb_ge; lia). done.
  - replace (0 <? cnt) with true by (symmetry; apply Z.ltb_lt; lia).
    intros Hp _. cbn [map modules_shape].
    by rewrite built_block_single.
Qed.

Lemma table_blocks_single (rows : list (Z * Z * Z * Z)) :
  Forall stride_ok rows ->
  forall ic n h w,
    1 <= h -> 1 <= w ->
    n * table_spatial rows h * table_spatial rows w = 1 ->
    n * h * w <> 1 ->
    modules_shape true
                  (map (fun a => Block (built_block a)) (table_blocks ic rows))
                  (n, ic, h, w)
    = None.
Proof.
  induction 1 as [|row rows Hrow Hrows IH]; intros ic n h w Hh Hw Hp Hne;
    [done|].
  cbn [table_blocks]. rewrite map_app, modules_shape_app.
  pose proof (stage_spatial_bounds h row Hh Hrow) as Hh1.
  pose proof (stage_spatial_bounds w row Hw Hrow) as Hw1.
  change (table_spatial (row :: rows) h)
    with (table_spatial rows (stage_spatial h row)) in *.
  change (table_spatial (row :: rows) w)
    with (table_spatial rows (stage_spatial w row)) in *.
  destruct (Z.eq_dec (n * stage_spatial h row * stage_spatial w row) 1)
    as [H1 | H1].
  - by rewrite stage_blocks_single.
  - rewrite stage_blocks_shape by (assumption || lia || by right).
    apply IH; (assumption || lia).
Qed.

(** In training mode the feature list rejects a batch that the final
    stage reduces to a single value per channel. *)
Lemma built_network_single (n_class k n : Z) (width_mult : Q) :
  1 <= k -> n * k * k = 1 ->
  modules_shape true (features (built_network n_class (32 * k) width_mult))
                (n, 3, 32 * k, 32 * k)
  = None.
Proof.
  intros Hk Hp.
  assert (n * (16 * k) * (16 * k) <> 1) as Hne by nia.
  unfold built_network. cbn [features].
  rewrite !modules_shape_app.
  cbn [modules_shape module_shape].
  replace (32 * k) with (2 * (16 * k)) at 1 2 by lia.
  rewrite conv_bn_shape; rewrite ?(conv_out_halves (16 * k));
    [|by right | lia | lia | by right].
  rewrite table_blocks_single;
    rewrite ?table_spatial_scaled, ?table_spatial_default;
    [done | apply scale_row_strides, default_setting_strides | lia | lia
     | exact Hp | exact Hne].
Qed.

End TrainingRejections.

Section ArchitectureBeyond.
Local Open Scope Z_scope.

(** X6.  Whenever [MobileNetV2(n_class, 32 * k, width_mult)] returns, with
    [k] positive, its feature list is shape-consistent from end to end on
    a batch of [n >= 1] square RGB images of side [32 * k], in evaluation
    mode and, provided the final stage leaves more than one value per
    channel ([n * k * k >= 2]), in training mode: every layer receives the
    channel count it was built for, no window exceeds its map, and the
    result has shape [(n, last_channel, 1, 1)], so that the final pooling
    leaves one value per channel.  In training mode a single image of
    side 32 is rejected by a batch normalisation. *)
Theorem MobileNetV2_features_shape (n_class k n : Z) (width_mult : Q)
    (m : MobileNetV2) (training : bool) :
  0 < k ->
  0 < n ->
  MobileNetV2_init n_class (32 * k) width_mult = Ok m ->
  (training = false \/ 2 <= n * k * k ->
   modules_shape training (features m) (n, 3, 32 * k, 32 * k)
   = Some (n, last_channel m, 1, 1)) /\
  (n * k * k = 1 ->
   modules_shape true (features m) (n, 3, 32 * k, 32 * k) = None).
Proof.
  intros Hk Hn Hinit. apply MobileNetV2_init_inv in Hinit as (_ & -> & _).
  split.
  - intros Hmode. apply built_network_shape; [lia|].
    destruct Hmode as [-> | Hp]; [by left | right; lia].
  - intros Hp. apply built_network_single; [lia | exact Hp].
Qed.

Lemma MobileNetV2_features_shape_witness :
  (true = false \/ 2 <= 2 * 7 * 7 ->
   modules_shape true (features (built_network 1000 (32 * 7) 1))
                 (2, 3, 32 * 7, 32 * 7)
   = Some (2, last_channel (built_network 1000 (32 * 7) 1), 1, 1)) /\
  (2 * 7 * 7 = 1 ->
   modules_shape true (features (built_network 1000 (32 * 7) 1))
                 (2, 3, 32 * 7, 32 * 7) = None).
Proof.
  apply (MobileNetV2_features_shape 1000 7 2 1
           (built_network 1000 (32 * 7) 1) true);
    [lia | lia | reflexivity].
Defined.

(** X7.  A block built by [InvertedResidual(inp, oup, stride,
    expand_ratio)], applied to [n >= 1] non-empty maps with [inp] channels,
    yields [oup] channels whose height and width are those of a 3×3 window
    with padding 1 at the block's stride: in evaluation mode always, in
    training mode when that result has more than one value per channel.
    In training mode a result of a single value per channel is rejected by
    a batch normalisation of the block.  When the block uses the shortcut
    its projection path returns exactly the shape of its input, so the sum
    [x + self.conv(x)] needs no broadcasting.  An activation with any
    other channel count is rejected by the first convolution. *)
Theorem InvertedResidual_shape (inp oup stride expand_ratio : Z)
    (b : InvertedResidual) (n c h w : Z) (training : bool) :
  InvertedResidual_init inp oup stride expand_ratio = Ok b ->
  0 < n -> 0 < h -> 0 < w ->
  c <> inp ->
  (training = false \/ 2 <= n * conv_out h 3 stride 1 * conv_out w 3 stride 1 ->
   module_shape training (Block b) (n, inp, h, w)
   = Some (n, oup, conv_out h 3 stride 1, conv_out w 3 stride 1)) /\
  (n * conv_out h 3 stride 1 * conv_out w 3 stride 1 = 1 ->
   module_shape true (Block b) (n, inp, h, w) = None) /\
  (use_res_connect b = true ->
   training = false \/ 2 <= n * h * w ->
   layers_shape training (ir_conv b) (n, inp, h, w) = Some (n, inp, h, w)) /\
  module_shape training (Block b) (n, c, h, w) = None.
Proof.
  intros Hinit Hn Hh Hw Hc. apply InvertedResidual_init_inv in Hinit as [Hs ->].
  split; [|split; [|split]].
  - intros Hmode. apply built_block_shape; [exact Hs | lia | lia |].
    destruct Hmode as [-> | Hp]; [by left | right; lia].
  - intros Hp. apply built_block_single; [exact Hs | lia | lia | exact Hp].
  - intros Hres Hmode. cbn [use_res_connect built_block] in Hres.
    apply andb_prop in Hres as [Hs1 Hio].
    apply Z.eqb_eq in Hs1 as ->. apply Z.eqb_eq in Hio as ->.
    rewrite built_block_path_shape; rewrite ?conv_out_same;
      [done | by left | lia | lia |].
    destruct Hmode as [-> | Hp]; [by left | right; lia].
  - cbn [module_shape built_block ir_conv layers_shape layer_shape].
    apply Z.eqb_neq in Hc. by rewrite Hc.
Qed.

Lemma InvertedResidual_shape_witness :
  (true = false \/ 2 <= 1 * conv_out 56 3 1 1 * conv_out 56 3 1 1 ->
   module_shape true (Block (built_block (24, 24, 1, 6))) (1, 24, 56, 56)
   = Some (1, 24, conv_out 56 3 1 1, conv_out 56 3 1 1)) /\
  (1 * conv_out 56 3 1 1 * conv_out 56 3 1 1 = 1 ->
   module_shape true (Block (built_block (24, 24, 1, 6))) (1, 24, 56, 56)
   = None) /\
  (use_res_connect (built_block (24, 24, 1, 6)) = true ->
   true = false \/ 2 <= 1 * 56 * 56 ->
   layers_shape true (ir_conv (built_block (24, 24, 1, 6))) (1, 24, 56, 56)
   = Some (1, 24, 56, 56)) /\
  module_shape true (Block (built_block (24, 24, 1, 6))) (1, 32, 56, 56) = None.
Proof.
  apply (InvertedResidual_shape 24 24 1 6 (built_block (24, 24, 1, 6))
           1 32 56 56 true); [reflexivity | lia | lia | lia | lia].
Defined.

Lemma stage_blocks_length (ic : Z) (row : Z * Z * Z * Z) :
  length (stage_blocks ic row) = Z.to_nat (row.1.2).
Proof.
  destruct row as [[[t c] cnt] s]. cbn.
  destruct (Z.to_nat cnt); cbn; [done|]. by rewrite repeat_length.
Qed.

Lemma table_blocks_length (rows : list (Z * Z * Z * Z)) (ic : Z) :
  length (table_blocks ic rows)
  = sum_list (map (fun row => Z.to_nat (row.1.2)) rows).
Proof.
  revert ic. induction rows as [|row rows IH]; intros ic; [done|].
  cbn [table_blocks map sum_list]. rewrite length_app, stage_blocks_length.
  by rewrite IH.
Qed.

Lemma scaled_setting_length (width_mult : Q) (ic : Z) :
  length (table_blocks ic (map (scale_row width_mult) default_setting))
  = 17%nat.
Proof. by rewrite table_blocks_length. Qed.

Lemma constructed_blocks (args : list (Z * Z * Z * Z)) :
  Forall constructed args ->
  Forall2 (fun b '(inp, oup, stride, t) =>
             InvertedResidual_init inp oup stride t = Ok b)
          (map built_block args) args.
Proof.
  intros Hall. apply Forall2_fmap_l, Forall_Forall2_diag.
  eapply Forall_impl; [exact Hall|].
  by intros [[[inp oup] stride] t] Hc.
Qed.

(** X8.  Whenever the constructor returns, at any width multiplier, its
    feature list has 20 entries: the stem [conv_bn(3, c0, 2)], 17 blocks, a
    1×1 convolution to [last_channel] and the pooling by [input_size //
    32].  Each block is the object returned by a call of the block
    constructor; the strides of the 17 calls are 1, 2, 1, 2, 1, 1, 2, 1, 1,
    1, 1, 1, 1, 2, 1, 1, 1 and their expansion ratios are 1 once and 6
    sixteen times, as the stage table prescribes; each call takes as
    input channels the output channels of the call before it, the first
    takes the [c0] channels of the stem, and the 1×1 convolution takes the
    output channels of the last. *)
Theorem MobileNetV2_blocks_any_width (n_class input_size : Z)
    (width_mult : Q) (m : MobileNetV2) :
  MobileNetV2_init n_class input_size width_mult = Ok m ->
  exists (c0 : Z) (args : list (Z * Z * Z * Z)) (c_last : Z),
    features m
    = [Sequential (conv_bn 3 c0 2)]
      ++ map Block (blocks_of (features m))
      ++ [Sequential (conv_1x1_bn c_last (last_channel m));
          Leaf (AvgPool2d (input_size `div` 32))] /\
    Forall2 (fun b '(inp, oup, stride, t) =>
               InvertedResidual_init inp oup stride t = Ok b)
            (blocks_of (features m)) args /\
    map (fun a => a.1.2) args
    = [1; 2; 1; 2; 1; 1; 2; 1; 1; 1; 1; 1; 1; 2; 1; 1; 1] /\
    map (fun a => a.2) args
    = [1; 6; 6; 6; 6; 6; 6; 6; 6; 6; 6; 6; 6; 6; 6; 6; 6] /\
    chained c0 args /\
    last (map (fun a => a.1.1.2) args) = Some c_last /\
    length (blocks_of (features m)) = 17%nat /\
    length (features m) = 20%nat.
Proof.
  intros Hinit. apply MobileNetV2_init_inv in Hinit as (_ & -> & Hall).
  exists (py_int (32 * width_mult)),
         (table_blocks (py_int (32 * width_mult))
                       (map (scale_row width_mult) default_setting)),
         (table_output (py_int (32 * width_mult))
                       (map (scale_row width_mult) default_setting)).
  rewrite blocks_of_built_network.
  split; [|split; [|split; [|split; [|split; [|split; [|split]]]]]].
  - unfold built_network. cbn [features last_channel].
    by rewrite <- map_map, <- !app_assoc.
  - by apply constructed_blocks.
  - reflexivity.
  - reflexivity.
  - apply chained_table.
  - reflexivity.
  - by rewrite length_map, scaled_setting_length.
  - unfold built_network. cbn [features].
    rewrite !length_app, length_map, scaled_setting_length. reflexivity.
Qed.

Lemma MobileNetV2_blocks_any_width_witness :
  exists (c0 : Z) (args : list (Z * Z * Z * Z)) (c_last : Z),
    features (built_network 10 64 (3 # 2))
    = [Sequential (conv_bn 3 c0 2)]
      ++ map Block (blocks_of (features (built_network 10 64 (3 # 2))))
      ++ [Sequential (conv_1x1_bn c_last
                        (last_channel (built_network 10 64 (3 # 2))));
          Leaf (AvgPool2d (64 `div` 32))] /\
    Forall2 (fun b '(inp, oup, stride, t) =>
               InvertedResidual_init inp oup stride t = Ok b)
            (blocks_of (features (built_network 10 64 (3 # 2)))) args /\
    map (fun a => a.1.2) args
    = [1; 2; 1; 2; 1; 1; 2; 1; 1; 1; 1; 1; 1; 2; 1; 1; 1] /\
    map (fun a => a.2) args
    = [1; 6; 6; 6; 6; 6; 6; 6; 6; 6; 6; 6; 6; 6; 6; 6; 6] /\
    chained c0 args /\
    last (map (fun a => a.1.1.2) args) = Some c_last /\
    length (blocks_of (features (built_network 10 64 (3 # 2)))) = 17%nat /\
    length (features (built_network 10 64 (3 # 2))) = 20%nat.
Proof.
  apply (MobileNetV2_blocks_any_width 10 64 (3 # 2)
           (built_network 10 64 (3 # 2))).
  reflexivity.
Defined.

Lemma py_int_scaling_up (c : Z) (width_mult : Q) :
  0 <= c -> (1 < width_mult)%Q -> c <= py_int (inject_Z c * width_mult).
Proof.
  intros Hc Hw. unfold py_int, Qlt in *. destruct width_mult as [a b].
  cbn in *. apply Z.quot_le_lower_bound; [lia|]. nia.
Qed.

(** X9.  The recorded [last_channel] is never below 1280: it is 1280 for
    every width multiplier up to 1 and [int(1280 * width_mult)], which is
    at least 1280, above.  The classifier's linear layer takes exactly
    [last_channel] input features. *)
Theorem MobileNetV2_last_channel (n_class input_size : Z) (width_mult : Q)
    (m : MobileNetV2) :
  MobileNetV2_init n_class input_size width_mult = Ok m ->
  1280 <= last_channel m /\
  ((width_mult <= 1)%Q -> last_channel m = 1280) /\
  ((1 < width_mult)%Q -> last_channel m = py_int (1280 * width_mult)) /\
  classifier m = [Leaf (Dropout (1 # 2)); Leaf (Linear (last_channel m) n_class)].
Proof.
  intros Hinit. apply MobileNetV2_init_inv in Hinit as (_ & -> & _).
  unfold built_network. cbn [last_channel classifier].
  destruct (Qlt_le_dec 1 width_mult) as [Hgt | Hle].
  - split; [by apply (py_int_scaling_up 1280)|].
    split; [|split; reflexivity].
    intros Hle. exfalso. by apply (Qlt_not_le _ _ Hgt).
  - split; [lia|]. split; [reflexivity|]. split; [|reflexivity].
    intros Hgt. exfalso. by apply (Qlt_not_le _ _ Hgt).
Qed.

Lemma MobileNetV2_last_channel_witness :
  1280 <= last_channel (built_network 10 64 (3 # 2)) /\
  ((3 # 2 <= 1)%Q -> last_channel (built_network 10 64 (3 # 2)) = 1280) /\
  ((1 < 3 # 2)%Q ->
   last_channel (built_network 10 64 (3 # 2)) = py_int (1280 * (3 # 2))) /\
  classifier (built_network 10 64 (3 # 2))
  = [Leaf (Dropout (1 # 2));
     Leaf (Linear (last_channel (built_network 10 64 (3 # 2))) 10)].
Proof.
  apply (MobileNetV2_last_channel 10 64 (3 # 2)
           (built_network 10 64 (3 # 2))).
  reflexivity.
Defined.

End ArchitectureBeyond.

(** ** Weight provisioning: frame, failures, interrupted transfers *)

Section DownloadBeyond.
Local Open Scope effect_scope.

Variable server : list string -> string -> result response.

(** X10.  Whatever the outcome, a call of [download_file] leaves every
    file other than [local_filename] as it was and hands at most one
    request to the transport layer, for [url]; a call that returns, returns
    [local_filename], and the file then exists. *)
Theorem download_file_frame (url local_filename other : string)
    (chunk_size : Z) (w w' : world) (r : result string) :
  download_file server url local_filename chunk_size w = (r, w') ->
  other <> local_filename ->
  fs w' !! other = fs w !! other /\
  (requests_log w' = requests_log w \/
   requests_log w' = requests_log w ++ [url]) /\
  (forall path, r = Ok path ->
     path = local_filename /\ is_Some (fs w' !! local_filename)).
Proof.
  rewrite download_file_cases. intros Hcall Hother.
  case_bool_decide as Hex.
  - injection Hcall as <- <-. split; [done|]. split; [by left|].
    by intros path [= <-].
  - destruct (server (requests_log w) url) as [resp|e].
    + destruct (open_error w local_filename) as [e|].
      { injection Hcall as <- <-. split; [done|]. split; [by right|].
        intros path [=]. }
      destruct (iter_content resp chunk_size) as [chunks failure].
      injection Hcall as <- <-. split; [|split].
      * cbn. by rewrite lookup_insert_ne.
      * by right.
      * intros path Hr. split; [|apply downloaded_exists].
        destruct failure; [discriminate|]. by injection Hr.
    + injection Hcall as <- <-. split; [done|]. split; [by right|].
      intros path [=].
Qed.

(** X11.  When [local_filename] does not exist and the connection fails,
    [download_file] raises the exception of the transport layer, creates no
    file and prints nothing; the failure is not remembered, and a second
    call sends a second request. *)
Theorem download_file_connect_failure (url local_filename : string)
    (chunk_size : Z) (w : world) (e : exn) :
  fs w !! local_filename = None ->
  server (requests_log w) url = Raise e ->
  exists w1,
    download_file server url local_filename chunk_size w = (Raise e, w1) /\
    fs w1 = fs w /\
    stdout w1 = stdout w /\
    requests_log w1 = requests_log w ++ [url] /\
    forall r2 w2,
      download_file server url local_filename chunk_size w1 = (r2, w2) ->
      requests_log w2 = requests_log w ++ [url; url].
Proof.
  intros Hnew Hfail.
  assert (Hno : forall files : gmap string (list Byte.byte),
                  files !! local_filename = None ->
                  bool_decide (is_Some (files !! local_filename)) = false).
  { intros files H. apply bool_decide_eq_false_2. rewrite H. by intros [? ?]. }
  eexists. split; [|split; [|split; [|split]]].
  - rewrite download_file_cases, (Hno _ Hnew), Hfail. reflexivity.
  - reflexivity.
  - reflexivity.
  - reflexivity.
  - intros r2 w2. rewrite download_file_cases. cbn [fs requests_log stdout].
    rewrite (Hno _ Hnew).
    destruct (server (requests_log w ++ [url]) url) as [resp|e2].
    + cbn [open_error].
      destruct (open_error w local_filename) as [e3|].
      { intros Hc. apply pair_equal_spec in Hc as [_ <-].
        cbn. by rewrite <- app_assoc. }
      destruct (iter_content resp chunk_size) as [chunks failure].
      intros Hc. apply pair_equal_spec in Hc as [_ <-].
      cbn. by rewrite <- app_assoc.
    + intros Hc. apply pair_equal_spec in Hc as [_ <-].
      cbn. by rewrite <- app_assoc.
Qed.


End DownloadBeyond.

Section DownloadBeyondWitnesses.
Local Open Scope effect_scope.

Lemma download_file_frame_witness :
  fs (downloaded "http://host/w" "weights.pth"
        [[Byte.x4e; Byte.x6f]; []; [Byte.x21]] empty_world)
     !! "other.pth"%string
  = fs empty_world !! "other.pth"%string /\
  (requests_log (downloaded "http://host/w" "weights.pth"
                   [[Byte.x4e; Byte.x6f]; []; [Byte.x21]] empty_world)
   = requests_log empty_world \/
   requests_log (downloaded "http://host/w" "weights.pth"
                   [[Byte.x4e; Byte.x6f]; []; [Byte.x21]] empty_world)
   = requests_log empty_world ++ ["http://host/w"%string]) /\
  (forall path, Ok "weights.pth"%string = Ok path ->
     path = "weights.pth"%string /\
     is_Some (fs (downloaded "http://host/w" "weights.pth"
                    [[Byte.x4e; Byte.x6f]; []; [Byte.x21]] empty_world)
                 !! "weights.pth"%string)).
Proof.
  apply (download_file_frame sample_not_found "http://host/w" "weights.pth"
           "other.pth" 1024 empty_world).
  - rewrite download_file_cases. reflexivity.
  - discriminate.
Defined.

Lemma download_file_connect_failure_witness :
  exists w1,
    download_file sample_offline "http://host/w" "weights.pth" 1024 empty_world
    = (Raise (ConnectionError "http://host/w"), w1) /\
    fs w1 = fs empty_world /\
    stdout w1 = stdout empty_world /\
    requests_log w1 = requests_log empty_world ++ ["http://host/w"%string] /\
    forall r2 w2,
      download_file sample_offline "http://host/w" "weights.pth" 1024 w1
      = (r2, w2) ->
      requests_log w2
      = requests_log empty_world
        ++ ["http://host/w"%string; "http://host/w"%string].
Proof.
  apply (download_file_connect_failure sample_offline "http://host/w"
           "weights.pth" 1024 empty_world (ConnectionError "http://host/w"));
    [apply lookup_empty | reflexivity].
Defined.


End DownloadBeyondWitnesses.

(** ** Loading the networks *)

Section LoadingFacts.
Local Open Scope effect_scope.

Variable server : list string -> string -> result response.
Variable state_dict : Type.
Variable unpickle : list Byte.byte -> result state_dict.
Variable accepts : list (list module) -> state_dict -> bool.
Variable available : TorchDevice.device -> bool.

Lemma mobile_net_v2_untrained (w : world) :
  mobile_net_v2 server state_dict unpickle accepts false w
  = (Ok (built_network 1000 224 1), w).
Proof. reflexivity. Qed.

Lemma NIMA_init_untrained (w : world) :
  NIMA_init server state_dict unpickle accepts false w = (Ok sample_NIMA, w).
Proof. reflexivity. Qed.

(** The constructor of the engine in closed form, for a device string that
    resolves. *)
Lemma InferenceModel_init_cases (dev_string : string)
    (path_to_model : option string) (dev : TorchDevice.device) (w : world) :
  TorchDevice.torch_device dev_string = Ok dev ->
  InferenceModel_init server state_dict unpickle accepts available
    dev_string path_to_model w
  = (match fs w !! default default_path_to_model path_to_model with
     | None =>
         Raise (FileNotFoundError
                  (default default_path_to_model path_to_model))
     | Some content =>
         sd <~ unpickle content ;;
         _ <~ load_state_dict state_dict accepts (NIMA_tree sample_NIMA) sd ;;
         if available dev
         then Ok {| device := dev;
                    transform := val_transform Transform_init;
                    model := sample_NIMA;
                    model_weights := sd;
                    model_training := false |}
         else Raise (RuntimeError "device is not available")
     end, w).
Proof.
  intros Hdev. unfold InferenceModel_init, bind at 1, lift at 1.
  rewrite Hdev. unfold bind at 1. rewrite NIMA_init_untrained.
  unfold bind at 1, torch_load.
  destruct (fs w !! default default_path_to_model path_to_model)
    as [content|]; [|reflexivity].
  destruct (unpickle content) as [sd|e]; [|reflexivity].
  cbn [rbind]. unfold bind at 1, lift.
  destruct (load_state_dict _ _ _ sd) as [[]|e]; [|reflexivity].
  cbn [rbind]. unfold bind, ret, raise.
  by destruct (available dev).
Qed.

End LoadingFacts.

Section LoadingBeyond.
Local Open Scope effect_scope.

Variable server : list string -> string -> result response.
Variable state_dict : Type.
Variable unpickle : list Byte.byte -> result state_dict.
Variable accepts : list (list module) -> state_dict -> bool.
Variable available : TorchDevice.device -> bool.

Lemma load_backbone_cases (path : string) (w : world) :
  (sd <- torch_load state_dict unpickle path ;;
   lift (load_state_dict state_dict accepts
           (children (built_network 1000 224 1)) sd) ;;;
   ret (built_network 1000 224 1)) w
  = match fs w !! path with
    | Some content =>
        (sd <~ unpickle content ;;
         _ <~ load_state_dict state_dict accepts
                (children (built_network 1000 224 1)) sd ;;
         Ok (built_network 1000 224 1), w)
    | None => (Raise (FileNotFoundError path), w)
    end.
Proof.
  unfold bind, ret, torch_load, lift.
  destruct (fs w !! path) as [content|]; [|reflexivity].
  destruct (unpickle content) as [sd|e]; [|reflexivity].
  cbn [rbind]. by destruct (load_state_dict _ _ _ sd).
Qed.

Lemma mobile_net_v2_pretrained_unfold (w : world) :
  mobile_net_v2 server state_dict unpickle accepts true w
  = (path_to_model <-
       (if bool_decide
             (is_Some (fs w !! "utils/nima/tmp/mobilenetv2.pth.tar"%string))
        then ret "utils/nima/tmp/mobilenetv2.pth.tar"%string
        else download_file server MOBILE_NET_V2_UTR
               "utils/nima/tmp/mobilenetv2.pth.tar" 1024) ;;
     sd <- torch_load state_dict unpickle path_to_model ;;
     lift (load_state_dict state_dict accepts
             (children (built_network 1000 224 1)) sd) ;;;
     ret (built_network 1000 224 1)) w.
Proof.
  unfold mobile_net_v2, bind at 1, lift at 1.
  change MobileNetV2_default with (Ok (built_network 1000 224 1)).
  cbv iota beta. unfold bind at 1, os_path_exists.
  by destruct (bool_decide _).
Qed.

(** X13.  Building the scoring network without pretrained base weights
    performs no input or output and cannot fail: in every world [NIMA(
    pretrained_base_model=False)] returns, the world is unchanged, the base
    model is the feature list of the default backbone alone (its classifier
    is dropped), and on [n] images of 224×224 this base model yields [n]
    vectors of 1280 values, the input width of the head's linear layer, in
    evaluation mode and in training mode alike. *)
Theorem NIMA_untrained_is_pure (w : world) (n : Z) (training : bool) :
  NIMA_init server state_dict unpickle accepts false w
  = (Ok {| base_model := [features (built_network 1000 224 1)];
           head := [ReLU true; Dropout (3 # 4); Linear 1280 10; Softmax 1] |},
     w) /\
  modules_shape training (features (built_network 1000 224 1))
                (n, 3, 224, 224)%Z
  = Some (n, 1280, 1, 1)%Z.
Proof.
  split; [reflexivity|].
  change 224%Z with (32 * 7)%Z.
  rewrite built_network_shape; [done | lia | right; lia].
Qed.

(** X14.  With the pretrained weights of the backbone already cached at
    ['utils/nima/tmp/mobilenetv2.pth.tar'], [mobile_net_v2(pretrained=True)]
    sends no request and changes nothing in the world; it returns the
    default network exactly when the cached content unpickles to a mapping
    that the network accepts, and raises the error of unpickling or of the
    strict loading otherwise. *)
Theorem mobile_net_v2_uses_cache (w : world) (content : list Byte.byte) :
  fs w !! "utils/nima/tmp/mobilenetv2.pth.tar"%string = Some content ->
  mobile_net_v2 server state_dict unpickle accepts true w
  = (sd <~ unpickle content ;;
     _ <~ load_state_dict state_dict accepts
            (children (built_network 1000 224 1)) sd ;;
     Ok (built_network 1000 224 1), w).
Proof.
  intros Hc. rewrite mobile_net_v2_pretrained_unfold.
  rewrite bool_decide_eq_true_2 by (rewrite Hc; by eexists).
  unfold bind at 1, ret at 1. rewrite load_backbone_cases. by rewrite Hc.
Qed.


(** X16.  Constructing an engine never changes the world: whatever the
    device string and the path, and whether construction succeeds or fails,
    no request is sent, nothing is printed and no file is written. *)
Theorem InferenceModel_init_frame (dev_string : string)
    (path_to_model : option string) (w : world) :
  snd (InferenceModel_init server state_dict unpickle accepts available
         dev_string path_to_model w) = w.
Proof.
  destruct (TorchDevice.torch_device dev_string) as [dev|e] eqn:Hdev.
  - by rewrite (InferenceModel_init_cases _ _ _ _ _ _ _ dev).
  - unfold InferenceModel_init, bind at 1, lift at 1. by rewrite Hdev.
Qed.

(** X17.  Construction of an engine succeeds exactly when the device string
    resolves to a device that is available and the weight file exists,
    unpickles, and is accepted by the strict loading into the scoring
    network.  The engine then holds that device, the inference transform,
    the scoring network and the loaded mapping, and is in evaluation
    mode. *)
Theorem InferenceModel_init_succeeds_iff (dev_string : string)
    (path_to_model : option string) (w w' : world)
    (engine : InferenceModel state_dict) :
  InferenceModel_init server state_dict unpickle accepts available
    dev_string path_to_model w = (Ok engine, w')
  <->
  exists dev content sd,
    TorchDevice.torch_device dev_string = Ok dev /\
    fs w !! default default_path_to_model path_to_model = Some content /\
    unpickle content = Ok sd /\
    accepts (NIMA_tree sample_NIMA) sd = true /\
    available dev = true /\
    w' = w /\
    engine = {| device := dev;
                transform := [Resize 224 224; ToTensor;
                              Normalize IMAGE_NET_MEAN IMAGE_NET_STD];
                model := sample_NIMA;
                model_weights := sd;
                model_training := false |}.
Proof.
  split.
  - destruct (TorchDevice.torch_device dev_string) as [dev|e] eqn:Hdev.
    + rewrite (InferenceModel_init_cases _ _ _ _ _ _ _ dev) by exact Hdev.
      destruct (fs w !! _) as [content|] eqn:Hfile; [|discriminate].
      destruct (unpickle content) as [sd|e] eqn:Hsd; [|discriminate].
      cbn [rbind]. unfold load_state_dict.
      destruct (accepts _ sd) eqn:Hacc; [|discriminate]. cbn [rbind].
      destruct (available dev) eqn:Hav; [|discriminate].
      intros [= <- <-]. by exists dev, content, sd.
    + unfold InferenceModel_init, bind at 1, lift at 1. rewrite Hdev.
      discriminate.
  - intros (dev & content & sd & Hdev & Hfile & Hsd & Hacc & Hav & -> & ->).
    rewrite (InferenceModel_init_cases _ _ _ _ _ _ _ dev) by exact Hdev.
    rewrite Hfile, Hsd. cbn [rbind]. unfold load_state_dict.
    rewrite Hacc. cbn [rbind]. by rewrite Hav.
Qed.

(** X18.  With a device string that resolves, a missing weight file makes
    construction raise [FileNotFoundError] for the path in use, the default
    path when none is given, before the availability of the device is
    looked at. *)
Theorem InferenceModel_init_missing_file (dev_string : string)
    (path_to_model : option string) (dev : TorchDevice.device) (w : world) :
  TorchDevice.torch_device dev_string = Ok dev ->
  fs w !! default "utils/nima/model/pretrain-model.pth"%string path_to_model
  = None ->
  InferenceModel_init server state_dict unpickle accepts available
    dev_string path_to_model w
  = (Raise (FileNotFoundError
              (default "utils/nima/model/pretrain-model.pth"%string
                       path_to_model)), w).
Proof.
  intros Hdev Hfile.
  rewrite (InferenceModel_init_cases _ _ _ _ _ _ _ dev) by exact Hdev.
  change default_path_to_model
    with "utils/nima/model/pretrain-model.pth"%string.
  by rewrite Hfile.
Qed.

End LoadingBeyond.

Section LoadingWitnesses.
Local Open Scope effect_scope.

Lemma mobile_net_v2_uses_cache_witness :
  mobile_net_v2 sample_offline unit (fun _ => Ok tt) (fun _ _ => true) true
    sample_backbone_world
  = (sd <~ Ok tt ;;
     _ <~ load_state_dict unit (fun _ _ => true)
            (children (built_network 1000 224 1)) sd ;;
     Ok (built_network 1000 224 1), sample_backbone_world).
Proof.
  apply (mobile_net_v2_uses_cache sample_offline unit (fun _ => Ok tt)
           (fun _ _ => true) sample_backbone_world [Byte.x00]).
  apply lookup_singleton_eq.
Defined.


Lemma sample_engine_constructed :
  InferenceModel_init sample_offline unit (fun _ => Ok tt) (fun _ _ => true)
    (fun _ => true) "cpu" None sample_engine_world
  = (Ok sample_engine, sample_engine_world).
Proof.
  rewrite (InferenceModel_init_cases _ _ _ _ _ _ _
             {| TorchDevice.device_type := "cpu";
                TorchDevice.device_index := None |}) by reflexivity.
  cbn [default]. unfold default_path_to_model, sample_engine_world.
  cbn [fs]. by rewrite lookup_singleton_eq.
Qed.

Lemma InferenceModel_init_succeeds_iff_witness :
  InferenceModel_init sample_offline unit (fun _ => Ok tt) (fun _ _ => true)
    (fun _ => true) "cpu" None sample_engine_world
  = (Ok sample_engine, sample_engine_world).
Proof.
  apply (InferenceModel_init_succeeds_iff sample_offline unit
           (fun _ => Ok tt) (fun _ _ => true) (fun _ => true) "cpu" None
           sample_engine_world sample_engine_world sample_engine).
  exists {| TorchDevice.device_type := "cpu";
            TorchDevice.device_index := None |}, [Byte.x00], tt.
  split; [reflexivity|]. split; [apply lookup_singleton_eq|].
  repeat (split; [reflexivity|]). reflexivity.
Defined.

Lemma InferenceModel_init_missing_file_witness :
  InferenceModel_init sample_offline unit (fun _ => Ok tt) (fun _ _ => true)
    (fun _ => false) "cuda:0" (Some "weights.pth"%string) empty_world
  = (Raise (FileNotFoundError
              (default "utils/nima/model/pretrain-model.pth"%string
                       (Some "weights.pth"%string))), empty_world).
Proof.
  apply (InferenceModel_init_missing_file sample_offline unit
           (fun _ => Ok tt) (fun _ _ => true) (fun _ => false) "cuda:0"
           (Some "weights.pth"%string)
           {| TorchDevice.device_type := "cuda";
              TorchDevice.device_index := Some 0%N |} empty_world).
  - reflexivity.
  - apply lookup_empty.
Defined.

End LoadingWitnesses.

(** ** Prediction *)

Section PredictionFacts.
Local Open Scope R_scope.

(** The head on rows of the right width, in either mode. *)
Lemma head_forward_rows (st : head_state) (x : batch) :
  linear_shape (linear st) 1280 10 ->
  Forall (fun row => length row = 1280%nat) x ->
  exists out,
    Sequential_forward st
      [ReLU true; Dropout (3 # 4); Linear 1280 10; Softmax 1] x = Ok out /\
    length out = length x /\
    Forall (fun row => length row = 10%nat /\
                       Forall (fun v => 0 <= v <= 1) row /\
                       np_sum row = 1) out.
Proof.
  intros Hshape Hx. pose proof (relu_rows _ _ Hx) as Hrelu.
  change (Sequential_forward st
            [ReLU true; Dropout (3 # 4); Linear 1280 10; Softmax 1] x)
    with (y <~ layer_forward st (Dropout (3 # 4)) (map (map relu) x) ;;
          Sequential_forward st [Linear 1280 10; Softmax 1] y).
  cbn [layer_forward].
  destruct (training st); cbn [rbind].
  - destruct (linear_softmax_rows st _ Hshape
                (dropout_rows (3 # 4) (keep_mask st) _ _ Hrelu))
      as (out & Hout & Hlen & Hrows).
    exists out. split; [exact Hout|]. split; [|exact Hrows].
    by rewrite Hlen, length_imap, length_map.
  - destruct (linear_softmax_rows st _ Hshape Hrelu)
      as (out & Hout & Hlen & Hrows).
    exists out. split; [exact Hout|]. split; [|exact Hrows].
    by rewrite Hlen, length_map.
Qed.

(** In evaluation mode the head is a function of the parameters alone. *)
Lemma head_forward_eval (P : linear_params) (mask : nat -> nat -> bool)
    (row : list R) :
  length row = 1280%nat ->
  Sequential_forward
    {| training := false; linear := P; keep_mask := mask |}
    [ReLU true; Dropout (3 # 4); Linear 1280 10; Softmax 1] [row]
  = Ok [softmax_row (linear_row P (map relu row))].
Proof.
  intros Hrow. unfold Sequential_forward.
  cbn [for_each layer_forward rbind training linear map forallb].
  rewrite length_map, Hrow. reflexivity.
Qed.

Lemma view_rows_single (y : tensor) :
  shape y = [1; 1280; 1; 1]%nat ->
  length (data y) = 1280%nat ->
  view_rows y = Ok [data y].
Proof.
  intros Hshape Hlen. unfold view_rows. rewrite Hshape, Hlen.
  cbn [Nat.eqb]. change (1280 mod 1 =? 0)%nat with true.
  change (1280 / 1)%nat with 1280%nat. cbn [rows_of].
  by rewrite take_ge by lia.
Qed.

Lemma distribution_row (P : linear_params) (x : list R) :
  linear_shape P 1280 10 ->
  ScoreDistribution (softmax_row (linear_row P x)) /\
  Forall (fun v => 0 <= v <= 1) (softmax_row (linear_row P x)).
Proof.
  intros Hshape. pose proof (linear_row_length _ _ _ x Hshape) as Hlen.
  split; [|apply softmax_row_range]. split; [|split].
  - rewrite softmax_row_length. lia.
  - eapply Forall_impl; [apply softmax_row_range|]. intros v Hv. cbn in Hv. lra.
  - apply softmax_row_sum. intros Hnil. rewrite Hnil in Hlen. cbn in Hlen. lia.
Qed.

Lemma std_within_half_range (p : ndarray) :
  ScoreDistribution p ->
  0 <= sqrt (weighted_variance (weighted_mean p) p) <= 9 / 2.
Proof.
  intros Hp. pose proof Hp as (Hlen & _ & Hsum).
  pose proof (weighted_variance_nonneg (weighted_mean p) p Hp) as Hnn.
  pose proof (second_moment_bound p Hp) as Hbound.
  pose proof (weighted_variance_moments p Hlen Hsum) as Hvar.
  set (v := weighted_variance (weighted_mean p) p) in *.
  set (m := weighted_mean p) in *.
  split; [apply sqrt_pos|].
  rewrite <- (sqrt_square (9 / 2)) by lra.
  apply sqrt_le_1_alt.
  pose proof (pow2_ge_0 (m - 11 / 2)). nra.
Qed.

End PredictionFacts.

Section PredictionBeyond.
Local Open Scope R_scope.

Variable server : list string -> string -> result response.
Variable state_dict : Type.
Variable unpickle : list Byte.byte -> result state_dict.
Variable accepts : list (list module) -> state_dict -> bool.
Variable available : TorchDevice.device -> bool.
Variable image : Type.
Variable transform_call : list transform_step -> image -> result tensor.
Variable base_model_call :
  state_dict -> list (list module) -> tensor -> result tensor.
Variable head_linear : state_dict -> linear_params.
Variable dropout_mask : nat -> nat -> bool.

Lemma InferenceModel_init_engine (dev_string : string)
    (path_to_model : option string) (w w' : world)
    (engine : InferenceModel state_dict) :
  InferenceModel_init server state_dict unpickle accepts available
    dev_string path_to_model w = (Ok engine, w') ->
  model state_dict engine = sample_NIMA /\
  model_training state_dict engine = false /\
  transform state_dict engine = val_transform Transform_init.
Proof.
  destruct (TorchDevice.torch_device dev_string) as [dev|e] eqn:Hdev.
  - rewrite (InferenceModel_init_cases _ _ _ _ _ _ _ dev) by exact Hdev.
    destruct (fs w !! _) as [content|]; [|discriminate].
    destruct (unpickle content) as [sd|e]; [|discriminate].
    cbn [rbind].
    destruct (load_state_dict _ _ _ sd) as [[]|e]; [|discriminate].
    cbn [rbind]. destruct (available dev); [|discriminate].
    by intros [= <- _].
  - unfold InferenceModel_init, bind at 1, lift at 1. rewrite Hdev.
    discriminate.
Qed.

(** X19.  For an engine that construction returned, whose loaded linear
    layer has the shapes of [nn.Linear(1280, 10)]: when the transform
    yields a tensor and the base model yields one vector of 1280 features
    for the batch of one image, [predict] returns a triple
    [(mean, std, prob)] in which [prob] is a ScoreDistribution with every
    value at most 1, computed without dropout as the softmax of the linear
    layer on the rectified features, [mean] is the bucket-weighted mean of
    [prob] and lies in [1, 10], and [std] is its standard deviation and
    lies in [0, 4.5]. *)
Theorem predict_returns_summary (dev_string : string)
    (path_to_model : option string) (w w' : world)
    (engine : InferenceModel state_dict) (img : image) (x y : tensor) :
  InferenceModel_init server state_dict unpickle accepts available
    dev_string path_to_model w = (Ok engine, w') ->
  linear_shape (head_linear (model_weights state_dict engine)) 1280 10 ->
  transform_call (transform state_dict engine) img = Ok x ->
  base_model_call (model_weights state_dict engine)
    (base_model (model state_dict engine)) (unsqueeze0 x) = Ok y ->
  shape y = [1; 1280; 1; 1]%nat ->
  length (data y) = 1280%nat ->
  exists prob,
    predict state_dict image transform_call base_model_call head_linear
      dropout_mask engine img
    = Ok (weighted_mean prob,
          sqrt (weighted_variance (weighted_mean prob) prob),
          prob) /\
    prob = softmax_row
             (linear_row (head_linear (model_weights state_dict engine))
                         (map relu (data y))) /\
    ScoreDistribution prob /\
    Forall (fun v => v <= 1) prob /\
    1 <= weighted_mean prob <= 10 /\
    0 <= sqrt (weighted_variance (weighted_mean prob) prob) <= 9 / 2.
Proof.
  intros Hinit Hshape Htrans Hbase Hsh Hlen.
  destruct (InferenceModel_init_engine _ _ _ _ _ Hinit) as (Hmodel & Hmode & _).
  set (P := head_linear (model_weights state_dict engine)) in *.
  destruct (distribution_row P (map relu (data y)) Hshape) as [Hdist Hrange].
  set (prob := softmax_row (linear_row P (map relu (data y)))) in *.
  exists prob.
  split; [|split; [reflexivity|split; [exact Hdist|split; [|split]]]].
  - unfold predict. rewrite Htrans. cbn [rbind].
    unfold NIMA_forward. rewrite Hbase. cbn [rbind].
    rewrite (view_rows_single y Hsh Hlen). cbn [rbind].
    rewrite Hmode, Hmodel. cbn [head sample_NIMA].
    fold P. rewrite head_forward_eval by exact Hlen. cbn [rbind]. fold prob.
    destruct Hdist as (Hlen10 & _).
    rewrite (get_mean_score_weighted prob Hlen10). cbn [rbind].
    by rewrite (get_std_score_weighted prob Hlen10).
  - eapply Forall_impl; [exact Hrange|]. intros v Hv. cbn in Hv. lra.
  - by apply weighted_mean_bounds.
  - by apply std_within_half_range.
Qed.

End PredictionBeyond.

Section PredictionWitness.
Local Open Scope R_scope.

Lemma predict_returns_summary_witness :
  exists prob,
    predict unit unit sample_transform_call sample_base_model_call
      (fun _ => linear sample_head_state) (fun _ _ => true)
      sample_engine tt
    = Ok (weighted_mean prob,
          sqrt (weighted_variance (weighted_mean prob) prob),
          prob) /\
    prob = softmax_row
             (linear_row (linear sample_head_state)
                         (map relu (repeat 0 1280))) /\
    ScoreDistribution prob /\
    Forall (fun v => v <= 1) prob /\
    1 <= weighted_mean prob <= 10 /\
    0 <= sqrt (weighted_variance (weighted_mean prob) prob) <= 9 / 2.
Proof.
  apply (predict_returns_summary sample_offline unit (fun _ => Ok tt)
           (fun _ _ => true) (fun _ => true) unit sample_transform_call
           sample_base_model_call (fun _ => linear sample_head_state)
           (fun _ _ => true) "cpu" None sample_engine_world
           sample_engine_world sample_engine tt sample_tensor
           {| shape := [1; 1280; 1; 1]%nat; data := repeat 0 1280 |}).
  - apply sample_engine_constructed.
  - apply sample_head_state_shape.
  - reflexivity.
  - reflexivity.
  - reflexivity.
  - apply repeat_length.
Defined.

End PredictionWitness.
